(** * ZipVoice: [zipvoice/dataset/datamodule.py]

    A shallow embedding of the TTS data module: the option registry
    ([TtsDataModule.add_arguments]), the three loader constructors
    ([train_dataloaders], [dev_dataloaders], [test_dataloaders]), the
    worker-seeding callable ([_SeedWorkers]) and the memoised manifest
    accessors ([@lru_cache()] methods).

    Python integers are unbounded, so they are [Z].  Calls into lhotse and
    torch are recorded as constructor calls: the class that is instantiated
    and the keyword arguments the source passes ([None] for a keyword the
    source does not pass, so that the library's default applies). *)

From Stdlib Require Import ZArith List String Ascii Bool Lia Floats DecimalString.
Import ListNotations.

Local Open Scope string_scope.
Local Open Scope Z_scope.

(** ** Python values that reach this module through [argparse] *)

Inductive value : Type :=
| VBool (b : bool)
| VInt (z : Z)
| VFloat (f : float)
| VStr (s : string)
| VPath (p : string).

(** The [type=] callables used by [add_arguments]. *)
Inductive converter : Type :=
| type_Path
| type_int
| type_str2bool
| type_str.

(** One [group.add_argument(...)] call. *)
Record argument : Type := mk_argument {
  option_string : string;
  type : converter;
  default : value;
  help : string
}.

(** ** The option registry *)

(** [TtsDataModule.add_arguments]: the ten [add_argument] calls, appended to
    the parser's list of arguments in source order. *)
Definition add_arguments (parser : list argument) : list argument :=
  parser ++
  [ mk_argument "--manifest-dir" type_Path (VPath "data/fbank")
      "Path to directory with train/valid/test cuts.";
    mk_argument "--max-duration" type_int (VFloat 200.0%float)
      ("Maximum pooled recordings duration (seconds) in a " ++
       "single batch. You can reduce it if it causes CUDA OOM.");
    mk_argument "--bucketing-sampler" type_str2bool (VBool true)
      ("When enabled, the batches will come from buckets of " ++
       "similar duration (saves padding frames).");
    mk_argument "--num-buckets" type_int (VInt 30)
      ("The number of buckets for the DynamicBucketingSampler" ++
       "(you might want to increase it for larger datasets).");
    mk_argument "--on-the-fly-feats" type_str2bool (VBool false)
      ("When enabled, use on-the-fly cut mixing and feature " ++
       "extraction. Will drop existing precomputed feature manifests " ++
       "if available.");
    mk_argument "--shuffle" type_str2bool (VBool true)
      ("When enabled (=default), the examples will be " ++
       "shuffled for each epoch.");
    mk_argument "--drop-last" type_str2bool (VBool true)
      "Whether to drop last batch. Used by sampler.";
    mk_argument "--return-cuts" type_str2bool (VBool false)
      ("When enabled, each batch will have the " ++
       "field: batch['cut'] with the cuts that " ++
       "were used to construct it.");
    mk_argument "--num-workers" type_int (VInt 8)
      ("The number of training dataloader workers that " ++
       "collect the batches.");
    mk_argument "--input-strategy" type_str (VStr "PrecomputedFeatures")
      "AudioSamples or PrecomputedFeatures" ].

(** ** [pathlib]: POSIX paths *)

(** [str.split("/")]. *)
Fixpoint split_slash (s : string) : list string :=
  match s with
  | EmptyString => [EmptyString]
  | String c rest =>
      if Ascii.eqb c "/" then EmptyString :: split_slash rest
      else
        match split_slash rest with
        | [] => [String c EmptyString]
        | w :: ws => String c w :: ws
        end
  end.

(** [str.lstrip("/")]. *)
Fixpoint lstrip_slash (s : string) : string :=
  match s with
  | String "/" rest => lstrip_slash rest
  | _ => s
  end.

(** A pure POSIX path: its root ([""], ["/"] or ["//"]) and its components. *)
Record PurePath : Type := mk_PurePath {
  root : string;
  parts : list string
}.

(** [_PosixFlavour.splitroot]: exactly two leading slashes are kept, any
    other number of them is one slash. *)
Definition splitroot (s : string) : string :=
  match s with
  | String "/" (String "/" (String "/" _)) => "/"
  | String "/" (String "/" _) => "//"
  | String "/" _ => "/"
  | _ => ""
  end.

Definition is_component (x : string) : bool :=
  negb (String.eqb x "") && negb (String.eqb x ".").

(** [Path(s)]: empty components and ["."] components are dropped. *)
Definition Path_parse (s : string) : PurePath :=
  mk_PurePath (splitroot s) (filter is_component (split_slash (lstrip_slash s))).

(** [str(path)]: the path without components and root is ["."]. *)
Definition Path_str (p : PurePath) : string :=
  match root p ++ String.concat "/" (parts p) with
  | EmptyString => "."
  | s => s
  end.

(** [path / key] for a string [key]: an absolute [key] replaces the path. *)
Definition Path_truediv (p : PurePath) (key : string) : PurePath :=
  match root (Path_parse key) with
  | EmptyString => mk_PurePath (root p) (parts p ++ parts (Path_parse key))
  | _ => Path_parse key
  end.

(** ** [argparse]: destinations, conversion and defaults *)

Fixpoint lstrip_dashes (s : string) : string :=
  match s with
  | String "-" rest => lstrip_dashes rest
  | _ => s
  end.

Fixpoint dashes_to_underscores (s : string) : string :=
  match s with
  | EmptyString => EmptyString
  | String c rest =>
      String (if Ascii.eqb c "-" then "_"%char else c) (dashes_to_underscores rest)
  end.

(** The attribute name argparse derives from a long option string. *)
Definition dest (a : argument) : string :=
  dashes_to_underscores (lstrip_dashes (option_string a)).

(** A token that starts with two dashes and goes on: the tokens argparse
    tries as abbreviations of long options. *)
Definition long_option_token (token : string) : bool :=
  match token with
  | String "-" (String "-" (String _ _)) => true
  | _ => false
  end.

(** [parser._parse_optional] on a token that comes with a value: the option
    whose string is the token, or else (abbreviations are allowed) the one
    long option the token is a prefix of.  [None] is argparse's error for a
    token that names no option or could name several.  The options of a
    parser have pairwise different strings; argparse refuses to register a
    second one. *)
Definition resolve (parser : list argument) (token : string) : option argument :=
  match filter (fun a => String.eqb token (option_string a)) parser with
  | a :: _ => Some a
  | [] =>
      if long_option_token token then
        match filter (fun a => String.prefix token (option_string a)) parser with
        | [a] => Some a
        | _ => None
        end
      else None
  end.

(** [names parser token opt]: the token resolves to the option [opt]. *)
Definition names (parser : list argument) (token opt : string) : bool :=
  match resolve parser token with
  | Some a => String.eqb (option_string a) opt
  | None => false
  end.

(** A command line is a list of pairs: a token that should name an option
    and the token after it, its value.  [--max-duration=300] is the pair
    [("--max-duration", "300")].  A command line of another shape leaves a
    token over, which argparse rejects, since no option of this parser goes
    without a value and there are no positional arguments. *)
Definition command_line : Type := list (string * string).

Definition is_digit (c : ascii) : bool :=
  (48 <=? nat_of_ascii c)%nat && (nat_of_ascii c <=? 57)%nat.

(** [\d+$] when [seen] is false, [\d*$] when it is true; [$] also matches
    before a final newline. *)
Fixpoint digits_to_end (seen : bool) (s : string) : bool :=
  match s with
  | EmptyString => seen
  | String c rest =>
      if is_digit c then digits_to_end true rest
      else seen && Ascii.eqb c "010" &&
           match rest with EmptyString => true | _ => false end
  end.

(** [\d*\.\d+$]. *)
Fixpoint fraction_to_end (s : string) : bool :=
  match s with
  | EmptyString => false
  | String c rest =>
      if Ascii.eqb c "." then digits_to_end false rest
      else if is_digit c then fraction_to_end rest
      else false
  end.

(** argparse's [_negative_number_matcher]: [^-\d+$|^-\d*\.\d+$]. *)
Definition negative_number (s : string) : bool :=
  match s with
  | String "-" rest => digits_to_end false rest || fraction_to_end rest
  | _ => false
  end.

Fixpoint has_space (s : string) : bool :=
  match s with
  | EmptyString => false
  | String c rest => Ascii.eqb c " " || has_space rest
  end.

(** [s.split("=", 1)[0]]. *)
Fixpoint before_equals (s : string) : string :=
  match s with
  | EmptyString => EmptyString
  | String c rest => if Ascii.eqb c "=" then EmptyString else String c (before_equals rest)
  end.

(** Whether argparse takes a token as the value of the option before it
    rather than as an option: [_parse_optional] returns [None] for it.
    The options of the parser are long options, as all of this module
    are. *)
Definition argument_token (parser : list argument) (v : string) : bool :=
  match v with
  | EmptyString => true
  | String "-" EmptyString => true
  | String "-" (String "-" EmptyString) => false
  | String "-" _ =>
      negb (existsb (fun a => String.eqb v (option_string a)) parser) &&
      negb (existsb (fun a => String.eqb (before_equals v) (option_string a)) parser) &&
      negb (match v with
            | String "-" (String "-" _) =>
                existsb (fun a => String.prefix (before_equals v) (option_string a))
                  parser
            | _ => false
            end) &&
      (negative_number v || has_space v)
  | _ => true
  end.

(** The values given for the option [opt], in the order of the command
    line. *)
Definition occurrences (parser : list argument) (opt : string)
    (argv : command_line) : list string :=
  map snd (filter (fun kv => names parser (fst kv) opt) argv).

(** The option [opt] occurs on the command line. *)
Definition given (parser : list argument) (opt : string) (argv : command_line)
  : bool :=
  existsb (fun kv => names parser (fst kv) opt) argv.

(** Every token names an option and is followed by a value: otherwise
    [parse_args] ends with "unrecognized arguments", "ambiguous option" or
    "expected one argument". *)
Definition recognised (parser : list argument) (argv : command_line) : bool :=
  forallb (fun kv => match resolve parser (fst kv) with
                     | Some _ => argument_token parser (snd kv)
                     | None => false
                     end) argv.

Section Argparse.

(** Python's [int(str)], and [zipvoice.utils.common.str2bool], which is
    not part of this file: both are taken as they come.  [None] stands
    for the exception that makes argparse reject the command line. *)
Variable py_int : string -> option Z.
Variable str2bool : string -> option bool.

Definition convert (t : converter) (s : string) : option value :=
  match t with
  | type_Path => Some (VPath (Path_str (Path_parse s)))
  | type_int => option_map VInt (py_int s)
  | type_str2bool => option_map VBool (str2bool s)
  | type_str => Some (VStr s)
  end.

(** Every occurrence of an option is converted when it is met; one that
    does not convert ends the parse. *)
Fixpoint convert_all (t : converter) (ss : list string) : option (list value) :=
  match ss with
  | [] => Some []
  | s :: rest =>
      match convert t s, convert_all t rest with
      | Some v, Some vs => Some (v :: vs)
      | _, _ => None
      end
  end.

(** argparse passes a default through [type] only when it is a string;
    any other default is stored as it is. *)
Definition default_value (a : argument) : option value :=
  match default a with
  | VStr s => convert (type a) s
  | v => Some v
  end.

(** The attribute of one option: the last value given for it, or its
    default when it does not occur. *)
Definition parse_argument (parser : list argument) (a : argument)
    (argv : command_line) : option (string * value) :=
  match convert_all (type a) (occurrences parser (option_string a) argv) with
  | None => None
  | Some [] => option_map (pair (dest a)) (default_value a)
  | Some (v :: vs) => Some (dest a, last vs v)
  end.

Fixpoint parse_each (parser todo : list argument) (argv : command_line)
  : option (list (string * value)) :=
  match todo with
  | [] => Some []
  | a :: rest =>
      match parse_argument parser a argv, parse_each parser rest argv with
      | Some kv, Some ns => Some (kv :: ns)
      | _, _ => None
      end
  end.

(** [parser.parse_args(argv)]: the namespace as a list of attributes, in
    registration order. *)
Definition parse_args (parser : list argument) (argv : command_line)
  : option (list (string * value)) :=
  if recognised parser argv then parse_each parser parser argv else None.

End Argparse.

Fixpoint getattr (ns : list (string * value)) (name : string) : option value :=
  match ns with
  | [] => None
  | (k, v) :: rest => if String.eqb k name then Some v else getattr rest name
  end.

(** ** The configuration object [self.args] *)

(** The attributes the module reads, typed by what each option's [type]
    yields.  [max_duration] is kept as a Python value: the module never
    computes with it and hands it to the samplers unchanged. *)
Record Namespace : Type := mk_Namespace {
  manifest_dir : string;
  max_duration : value;
  bucketing_sampler : bool;
  num_buckets : Z;
  on_the_fly_feats : bool;
  shuffle : bool;
  drop_last : bool;
  return_cuts : bool;
  num_workers : Z;
  input_strategy : string
}.

Definition to_Namespace (ns : list (string * value)) : option Namespace :=
  match getattr ns "manifest_dir", getattr ns "max_duration",
        getattr ns "bucketing_sampler", getattr ns "num_buckets",
        getattr ns "on_the_fly_feats", getattr ns "shuffle",
        getattr ns "drop_last", getattr ns "return_cuts",
        getattr ns "num_workers", getattr ns "input_strategy" with
  | Some (VPath md), Some dur, Some (VBool bs), Some (VInt nb),
    Some (VBool otf), Some (VBool sh), Some (VBool dl), Some (VBool rc),
    Some (VInt nw), Some (VStr strat) =>
      Some (mk_Namespace md dur bs nb otf sh dl rc nw strat)
  | _, _, _, _, _, _, _, _, _, _ => None
  end.

(** The configuration a command line without options gives. *)
Definition default_args : Namespace :=
  mk_Namespace "data/fbank" (VFloat 200.0%float) true 30 false true true false 8
    "PrecomputedFeatures".

(** ** Objects of lhotse, torch and [zipvoice.dataset] *)

(** A cut collection handle, as [load_manifest_lazy] returns it: the file is
    not read at construction.  [cutset_id] is the identity of the Python
    object. *)
Record CutSet : Type := mk_CutSet {
  cutset_id : nat;
  manifest : string
}.

Inductive FeatureExtractor : Type :=
| VocosFbank.

Inductive InputStrategy : Type :=
| OnTheFlyFeatures (extractor : FeatureExtractor)
| PrecomputedFeatures.

(** The keyword arguments of one [SpeechSynthesisDataset(...)] call. *)
Record SpeechSynthesisDataset : Type := mk_SpeechSynthesisDataset {
  ssd_return_text : option bool;
  ssd_return_tokens : option bool;
  ssd_return_spk_ids : option bool;
  ssd_feature_input_strategy : option InputStrategy;
  ssd_return_cuts : option bool;
  ssd_return_audio : option bool
}.

Inductive SamplerClass : Type :=
| DynamicBucketingSampler
| SimpleCutSampler.

(** [Dict[str, Any]]: this module never looks inside. *)
Definition StateDict : Type := list (string * value).

(** A sampler object: its class, the arguments of the constructor call, and
    the state dict last handed to [load_state_dict]. *)
Record Sampler : Type := mk_Sampler {
  sampler_class : SamplerClass;
  smp_cuts : CutSet;
  smp_max_duration : option value;
  smp_shuffle : option bool;
  smp_num_buckets : option Z;
  smp_buffer_size : option Z;
  smp_shuffle_buffer_size : option Z;
  smp_drop_last : option bool;
  loaded_state : option StateDict
}.

Definition load_state_dict (s : Sampler) (state_dict : StateDict) : Sampler :=
  {| sampler_class := sampler_class s;
     smp_cuts := smp_cuts s;
     smp_max_duration := smp_max_duration s;
     smp_shuffle := smp_shuffle s;
     smp_num_buckets := smp_num_buckets s;
     smp_buffer_size := smp_buffer_size s;
     smp_shuffle_buffer_size := smp_shuffle_buffer_size s;
     smp_drop_last := smp_drop_last s;
     loaded_state := Some state_dict |}.

(** [_SeedWorkers]: a callable object holding the base seed. *)
Record _SeedWorkers : Type := mk_SeedWorkers {
  seed : Z
}.

(** The random state of one process, named by the seed it was last given. *)
Record RandomState : Type := mk_RandomState {
  current_seed : Z
}.

(** [lhotse.utils.fix_random_seed]: reseeds the generators of the calling
    process. *)
Definition fix_random_seed (random_seed : Z) (_ : RandomState) : RandomState :=
  mk_RandomState random_seed.

(** [_SeedWorkers.__call__]. *)
Definition SeedWorkers_call (self : _SeedWorkers) (worker_id : Z)
  : RandomState -> RandomState :=
  fix_random_seed (seed self + worker_id).

(** The keyword arguments of one [DataLoader(...)] call.  [batch_size] is
    passed as Python's [None], which is [Some None] here. *)
Record DataLoader : Type := mk_DataLoader {
  dl_dataset : SpeechSynthesisDataset;
  dl_sampler : Sampler;
  dl_batch_size : option (option Z);
  dl_num_workers : option Z;
  dl_persistent_workers : option bool;
  dl_worker_init_fn : option _SeedWorkers
}.

(** What a torch worker does at startup with the loader's
    [worker_init_fn]: it calls it with its own id, if there is one. *)
Definition worker_startup (dl : DataLoader) (worker_id : Z) (st : RandomState)
  : RandomState :=
  match dl_worker_init_fn dl with
  | Some init_fn => SeedWorkers_call init_fn worker_id st
  | None => st
  end.

(** *** Defaults of keywords the source leaves out *)

(** Modelled from the spec: [SpeechSynthesisDataset] lives in
    [zipvoice/dataset/dataset.py], which is not part of this file; raw audio
    is returned in the test phase only, so a call without [return_audio]
    does not request it. *)
Definition return_audio_default : bool := false.

(** Modelled from the spec: lhotse's samplers and torch's [DataLoader] are
    third-party; a sampler built without [drop_last] does not drop the last
    batch, one built without [shuffle] does not shuffle, and a loader built
    without [persistent_workers] recreates its workers each epoch. *)
Definition drop_last_default : bool := false.
Definition shuffle_default : bool := false.
Definition persistent_workers_default : bool := false.

Definition keyword {A : Type} (passed : option A) (dflt : A) : A :=
  match passed with
  | Some a => a
  | None => dflt
  end.

Definition requests_audio (d : SpeechSynthesisDataset) : bool :=
  keyword (ssd_return_audio d) return_audio_default.

Definition drops_last (s : Sampler) : bool :=
  keyword (smp_drop_last s) drop_last_default.

Definition shuffles (s : Sampler) : bool :=
  keyword (smp_shuffle s) shuffle_default.

Definition persistent (dl : DataLoader) : bool :=
  keyword (dl_persistent_workers dl) persistent_workers_default.

(** ** Iterating a sampler *)

(** Modelled from the spec: lhotse's samplers are third-party, and the spec
    says of them that batch order follows sampler iteration order, which is
    deterministic given a fixed shuffle seed and fixed bucketing parameters.
    [batches s e] is the sequence of batches one pass over the sampler [s]
    yields, [e] being the randomness the pass may draw on; a sampler that
    does not shuffle draws on none. *)
Class Iteration (Batch Entropy : Type) : Type := {
  batches : Sampler -> Entropy -> list Batch;
  unshuffled_order :
    forall (s : Sampler) (e1 e2 : Entropy),
      shuffles s = false -> batches s e1 = batches s e2
}.

(** ** The process: ambient generator, object identities, caches, log *)

(** torch's ambient random generator.  [randint low high] is
    [torch.randint(low, high, ()).item()]: one integer of the half-open
    range, and the generator advanced. *)
Class Generator (G : Type) : Type := {
  randint : Z -> Z -> G -> Z * G;
  randint_range :
    forall low high g, low < high ->
      low <= fst (randint low high g) < high
}.

(** What a caller hands to an accessor that takes the manifest: a [str],
    or [Path(p)]. *)
Inductive manifest_arg : Type :=
| arg_str (s : string)
| arg_Path (p : string).

(** How the caller passes it: [f(x)] or [f(manifest_file=x)]. *)
Inductive passing : Type :=
| positional
| by_keyword.

(** [str(x)] of such an argument, which is also what an f-string shows. *)
Definition arg_text (a : manifest_arg) : string :=
  match a with
  | arg_str s => s
  | arg_Path p => Path_str (Path_parse p)
  end.

(** An element of a key that [functools._make_key] builds, after [self]: a
    [str], a [Path] (two paths are equal when their [str] is), or the mark
    that precedes the keyword arguments. *)
Inductive key_item : Type :=
| item_str (s : string)
| item_Path (p : string)
| item_kwd_mark.

Definition item_of (a : manifest_arg) : key_item :=
  match a with
  | arg_str s => item_str s
  | arg_Path p => item_Path (Path_str (Path_parse p))
  end.

(** A cache key of [functools.lru_cache] on a bound method: the identity of
    [self], then the positional arguments, then the mark and the name and
    value of each keyword argument. *)
Definition Key : Type := (nat * list key_item)%type.

Definition key_item_eq_dec (a b : key_item) : {a = b} + {a <> b}.
Proof. decide equality; apply string_dec. Defined.

Definition Key_eq_dec (a b : Key) : {a = b} + {a <> b}.
Proof.
  decide equality.
  - apply (list_eq_dec key_item_eq_dec).
  - apply Nat.eq_dec.
Defined.

(** The part of the key that comes from the manifest argument. *)
Definition key_args (how : passing) (a : manifest_arg) : list key_item :=
  match how with
  | positional => [item_of a]
  | by_keyword => [item_kwd_mark; item_str "manifest_file"; item_of a]
  end.

(** One cache: most recently used entry first. *)
Definition Cache : Type := list (Key * CutSet).

Record Process (G : Type) : Type := mk_Process {
  generator : G;
  next_id : nat;
  lru_caches : string -> Cache;
  log : list string
}.

Arguments mk_Process {G} _ _ _ _.
Arguments generator {G} _.
Arguments next_id {G} _.
Arguments lru_caches {G} _ _.
Arguments log {G} _.

Definition SAMPLING_RATE : Z := 24000.

(** The instance on which the methods are called. *)
Record TtsDataModule : Type := mk_TtsDataModule {
  self_id : nat;
  args : Namespace
}.

(** ** A state monad over the process *)

Definition M (G A : Type) : Type := Process G -> A * Process G.

Definition ret {G A : Type} (a : A) : M G A := fun p => (a, p).

Definition bind {G A B : Type} (m : M G A) (k : A -> M G B) : M G B :=
  fun p => let (a, p') := m p in k a p'.

Declare Scope process_scope.
Delimit Scope process_scope with process.

Notation "x <- m ;; k" := (bind m (fun x => k))
  (at level 61, m at next level, right associativity) : process_scope.
Notation "m ;; k" := (bind m (fun _ => k))
  (at level 61, right associativity) : process_scope.

Local Open Scope process_scope.

(** [logging.info(msg)]. *)
Definition logging_info {G : Type} (msg : string) : M G unit :=
  fun p => (tt, mk_Process (generator p) (next_id p) (lru_caches p) (log p ++ [msg])).

(** [torch.randint(low, high, ()).item()] on the ambient generator. *)
Definition torch_randint {G : Type} `{Generator G} (low high : Z) : M G Z :=
  fun p =>
    let (n, g) := randint low high (generator p) in
    (n, mk_Process g (next_id p) (lru_caches p) (log p)).

(** [lhotse.load_manifest_lazy(path)]: a new handle on the file. *)
Definition load_manifest_lazy {G : Type} (path : string) : M G CutSet :=
  fun p =>
    (mk_CutSet (next_id p) path,
     mk_Process (generator p) (S (next_id p)) (lru_caches p) (log p)).

(** ** The loader constructors *)

Section Loaders.

Context {G : Type} `{Generator G}.

(** The feature strategy the three dataset constructions share. *)
Definition feature_input_strategy (self : TtsDataModule) : InputStrategy :=
  if on_the_fly_feats (args self)
  then OnTheFlyFeatures VocosFbank
  else PrecomputedFeatures.

Definition train_dataloaders (self : TtsDataModule) (cuts_train : CutSet)
    (sampler_state_dict : option StateDict) : M G DataLoader :=
  logging_info "About to create train dataset" ;;
  let train :=
    {| ssd_return_text := Some true;
       ssd_return_tokens := Some true;
       ssd_return_spk_ids := Some true;
       ssd_feature_input_strategy := Some (feature_input_strategy self);
       ssd_return_cuts := Some (return_cuts (args self));
       ssd_return_audio := None |} in
  train_sampler <-
    (if bucketing_sampler (args self) then
       logging_info "Using DynamicBucketingSampler." ;;
       ret {| sampler_class := DynamicBucketingSampler;
              smp_cuts := cuts_train;
              smp_max_duration := Some (max_duration (args self));
              smp_shuffle := Some (shuffle (args self));
              smp_num_buckets := Some (num_buckets (args self));
              smp_buffer_size := Some (num_buckets (args self) * 2000);
              smp_shuffle_buffer_size := Some (num_buckets (args self) * 5000);
              smp_drop_last := Some (drop_last (args self));
              loaded_state := None |}
     else
       logging_info "Using SimpleCutSampler." ;;
       ret {| sampler_class := SimpleCutSampler;
              smp_cuts := cuts_train;
              smp_max_duration := Some (max_duration (args self));
              smp_shuffle := Some (shuffle (args self));
              smp_num_buckets := None;
              smp_buffer_size := None;
              smp_shuffle_buffer_size := None;
              smp_drop_last := None;
              loaded_state := None |}) ;;
  logging_info "About to create train dataloader" ;;
  train_sampler <-
    match sampler_state_dict with
    | Some state_dict =>
        logging_info "Loading sampler state dict" ;;
        ret (load_state_dict train_sampler state_dict)
    | None => ret train_sampler
    end ;;
  seed <- torch_randint 0 100000 ;;
  let worker_init_fn := mk_SeedWorkers seed in
  ret {| dl_dataset := train;
         dl_sampler := train_sampler;
         dl_batch_size := Some None;
         dl_num_workers := Some (num_workers (args self));
         dl_persistent_workers := Some false;
         dl_worker_init_fn := Some worker_init_fn |}.

Definition dev_dataloaders (self : TtsDataModule) (cuts_valid : CutSet)
  : M G DataLoader :=
  logging_info "About to create dev dataset" ;;
  let validate :=
    {| ssd_return_text := Some true;
       ssd_return_tokens := Some true;
       ssd_return_spk_ids := Some true;
       ssd_feature_input_strategy := Some (feature_input_strategy self);
       ssd_return_cuts := Some (return_cuts (args self));
       ssd_return_audio := None |} in
  let dev_sampler :=
    {| sampler_class := DynamicBucketingSampler;
       smp_cuts := cuts_valid;
       smp_max_duration := Some (max_duration (args self));
       smp_shuffle := Some false;
       smp_num_buckets := None;
       smp_buffer_size := None;
       smp_shuffle_buffer_size := None;
       smp_drop_last := None;
       loaded_state := None |} in
  logging_info "About to create valid dataloader" ;;
  ret {| dl_dataset := validate;
         dl_sampler := dev_sampler;
         dl_batch_size := Some None;
         dl_num_workers := Some 2;
         dl_persistent_workers := Some false;
         dl_worker_init_fn := None |}.

Definition test_dataloaders (self : TtsDataModule) (cuts : CutSet)
  : M G DataLoader :=
  logging_info "About to create test dataset" ;;
  let test :=
    {| ssd_return_text := Some true;
       ssd_return_tokens := Some true;
       ssd_return_spk_ids := Some true;
       ssd_feature_input_strategy := Some (feature_input_strategy self);
       ssd_return_cuts := Some (return_cuts (args self));
       ssd_return_audio := Some true |} in
  let test_sampler :=
    {| sampler_class := DynamicBucketingSampler;
       smp_cuts := cuts;
       smp_max_duration := Some (max_duration (args self));
       smp_shuffle := Some false;
       smp_num_buckets := None;
       smp_buffer_size := None;
       smp_shuffle_buffer_size := None;
       smp_drop_last := None;
       loaded_state := None |} in
  logging_info "About to create test dataloader" ;;
  ret {| dl_dataset := test;
         dl_sampler := test_sampler;
         dl_batch_size := Some None;
         dl_num_workers := Some (num_workers (args self));
         dl_persistent_workers := None;
         dl_worker_init_fn := None |}.

(** The sampler [train_dataloaders] has built when it reaches the state
    dict: the one of the branch the bucketing flag selects. *)
Definition train_sampler_of (self : TtsDataModule) (cuts_train : CutSet) : Sampler :=
  if bucketing_sampler (args self) then
    {| sampler_class := DynamicBucketingSampler;
       smp_cuts := cuts_train;
       smp_max_duration := Some (max_duration (args self));
       smp_shuffle := Some (shuffle (args self));
       smp_num_buckets := Some (num_buckets (args self));
       smp_buffer_size := Some (num_buckets (args self) * 2000);
       smp_shuffle_buffer_size := Some (num_buckets (args self) * 5000);
       smp_drop_last := Some (drop_last (args self));
       loaded_state := None |}
  else
    {| sampler_class := SimpleCutSampler;
       smp_cuts := cuts_train;
       smp_max_duration := Some (max_duration (args self));
       smp_shuffle := Some (shuffle (args self));
       smp_num_buckets := None;
       smp_buffer_size := None;
       smp_shuffle_buffer_size := None;
       smp_drop_last := None;
       loaded_state := None |}.

(** The base seed a construction draws from process [p]. *)
Definition base_seed (p : Process G) : Z :=
  fst (randint 0 100000 (generator p)).

End Loaders.

(** ** [functools.lru_cache] *)

(** [@lru_cache()] is [lru_cache(maxsize=128, typed=False)]. *)
Definition maxsize : nat := 128.

Fixpoint cache_get (key : Key) (c : Cache) : option CutSet :=
  match c with
  | [] => None
  | (k, v) :: rest => if Key_eq_dec k key then Some v else cache_get key rest
  end.

Fixpoint cache_remove (key : Key) (c : Cache) : Cache :=
  match c with
  | [] => []
  | (k, v) :: rest =>
      if Key_eq_dec k key then cache_remove key rest
      else (k, v) :: cache_remove key rest
  end.

Definition set_cache {G : Type} (name : string) (c : Cache) (p : Process G)
  : Process G :=
  mk_Process (generator p) (next_id p)
    (fun n => if String.eqb n name then c else lru_caches p n)
    (log p).

(** The wrapper [lru_cache] puts around a function, for the cache that
    belongs to the function called [name].  A hit moves the entry to the
    most recent position.  A miss calls the function and stores the result,
    unless the key has appeared meanwhile; when the cache is full the least
    recently used entry goes. *)
Definition lru_cache {G : Type} (name : string) (key : Key)
    (user_function : M G CutSet) : M G CutSet :=
  fun p =>
    match cache_get key (lru_caches p name) with
    | Some result =>
        (result,
         set_cache name ((key, result) :: cache_remove key (lru_caches p name)) p)
    | None =>
        let (result, p1) := user_function p in
        match cache_get key (lru_caches p1 name) with
        | Some _ => (result, p1)
        | None =>
            (result,
             set_cache name (firstn maxsize ((key, result) :: lru_caches p1 name)) p1)
        end
    end.

(** ** The manifest accessors *)

(** [str(Path(dir) / name)]: what [self.args.manifest_dir / name] names. *)
Definition path_join (dir name : string) : string :=
  Path_str (Path_truediv (Path_parse dir) name).

Section Accessors.

Context {G : Type}.

Definition train_custom_cuts (self : TtsDataModule) (how : passing)
    (manifest_file : manifest_arg) : M G CutSet :=
  lru_cache "train_custom_cuts" (self_id self, key_args how manifest_file)
    (logging_info
       ("About to get the custom training cuts " ++ arg_text manifest_file) ;;
     load_manifest_lazy (arg_text manifest_file)).

Definition dev_custom_cuts (self : TtsDataModule) (how : passing)
    (manifest_file : manifest_arg) : M G CutSet :=
  lru_cache "dev_custom_cuts" (self_id self, key_args how manifest_file)
    (logging_info
       ("About to get the custom validation cuts " ++ arg_text manifest_file) ;;
     load_manifest_lazy (arg_text manifest_file)).

Definition train_emilia_EN_cuts (self : TtsDataModule) : M G CutSet :=
  lru_cache "train_emilia_EN_cuts" (self_id self, [])
    (logging_info "About to get train the EN subset" ;;
     load_manifest_lazy
       (path_join (manifest_dir (args self)) "emilia_cuts_EN.jsonl.gz")).

Definition train_emilia_ZH_cuts (self : TtsDataModule) : M G CutSet :=
  lru_cache "train_emilia_ZH_cuts" (self_id self, [])
    (logging_info "About to get train the ZH subset" ;;
     load_manifest_lazy
       (path_join (manifest_dir (args self)) "emilia_cuts_ZH.jsonl.gz")).

Definition dev_emilia_EN_cuts (self : TtsDataModule) : M G CutSet :=
  lru_cache "dev_emilia_EN_cuts" (self_id self, [])
    (logging_info "About to get dev the EN subset" ;;
     load_manifest_lazy
       (path_join (manifest_dir (args self)) "emilia_cuts_EN-dev.jsonl.gz")).

Definition dev_emilia_ZH_cuts (self : TtsDataModule) : M G CutSet :=
  lru_cache "dev_emilia_ZH_cuts" (self_id self, [])
    (logging_info "About to get dev the ZH subset" ;;
     load_manifest_lazy
       (path_join (manifest_dir (args self)) "emilia_cuts_ZH-dev.jsonl.gz")).

Definition train_libritts_cuts (self : TtsDataModule) : M G CutSet :=
  lru_cache "train_libritts_cuts" (self_id self, [])
    (logging_info
       ("About to get the shuffled train-clean-100, " ++
        "            train-clean-360 and train-other-500 cuts") ;;
     load_manifest_lazy
       (path_join (manifest_dir (args self)) "libritts_cuts_train-all-shuf.jsonl.gz")).

Definition dev_libritts_cuts (self : TtsDataModule) : M G CutSet :=
  lru_cache "dev_libritts_cuts" (self_id self, [])
    (logging_info "About to get dev-clean cuts" ;;
     load_manifest_lazy
       (path_join (manifest_dir (args self)) "libritts_cuts_dev-clean.jsonl.gz")).

Definition train_opendialog_en_cuts (self : TtsDataModule) : M G CutSet :=
  lru_cache "train_opendialog_en_cuts" (self_id self, [])
    (logging_info "About to ge the EN train subset of OpenDialog" ;;
     load_manifest_lazy
       (path_join (manifest_dir (args self)) "opendialog_cuts_EN-train.jsonl.gz")).

Definition train_opendialog_zh_cuts (self : TtsDataModule) : M G CutSet :=
  lru_cache "train_opendialog_zh_cuts" (self_id self, [])
    (logging_info "About to get the ZH train subset of OpenDialog" ;;
     load_manifest_lazy
       (path_join (manifest_dir (args self)) "opendialog_cuts_ZH-train.jsonl.gz")).

Definition dev_opendialog_en_cuts (self : TtsDataModule) : M G CutSet :=
  lru_cache "dev_opendialog_en_cuts" (self_id self, [])
    (logging_info "About to ge the EN dev subset of OpenDialog" ;;
     load_manifest_lazy
       (path_join (manifest_dir (args self)) "opendialog_cuts_EN-dev.jsonl.gz")).

Definition dev_opendialog_zh_cuts (self : TtsDataModule) : M G CutSet :=
  lru_cache "dev_opendialog_zh_cuts" (self_id self, [])
    (logging_info "About to get the ZH dev subset of OpenDialog" ;;
     load_manifest_lazy
       (path_join (manifest_dir (args self)) "opendialog_cuts_ZH-dev.jsonl.gz")).

End Accessors.

(** ** Sequences of accessor calls within one process *)

(** One call [dm.accessor(...)] on an instance: [self] is bound, so it is
    the first positional element of the key; the manifest argument of the
    two accessors that take one comes with the way it is passed. *)
Inductive Call : Type :=
| call_train_custom_cuts (self : TtsDataModule) (how : passing)
    (manifest_file : manifest_arg)
| call_dev_custom_cuts (self : TtsDataModule) (how : passing)
    (manifest_file : manifest_arg)
| call_train_emilia_EN_cuts (self : TtsDataModule)
| call_train_emilia_ZH_cuts (self : TtsDataModule)
| call_dev_emilia_EN_cuts (self : TtsDataModule)
| call_dev_emilia_ZH_cuts (self : TtsDataModule)
| call_train_libritts_cuts (self : TtsDataModule)
| call_dev_libritts_cuts (self : TtsDataModule)
| call_train_opendialog_en_cuts (self : TtsDataModule)
| call_train_opendialog_zh_cuts (self : TtsDataModule)
| call_dev_opendialog_en_cuts (self : TtsDataModule)
| call_dev_opendialog_zh_cuts (self : TtsDataModule).

Definition perform {G : Type} (c : Call) : M G CutSet :=
  match c with
  | call_train_custom_cuts self how f => train_custom_cuts self how f
  | call_dev_custom_cuts self how f => dev_custom_cuts self how f
  | call_train_emilia_EN_cuts self => train_emilia_EN_cuts self
  | call_train_emilia_ZH_cuts self => train_emilia_ZH_cuts self
  | call_dev_emilia_EN_cuts self => dev_emilia_EN_cuts self
  | call_dev_emilia_ZH_cuts self => dev_emilia_ZH_cuts self
  | call_train_libritts_cuts self => train_libritts_cuts self
  | call_dev_libritts_cuts self => dev_libritts_cuts self
  | call_train_opendialog_en_cuts self => train_opendialog_en_cuts self
  | call_train_opendialog_zh_cuts self => train_opendialog_zh_cuts self
  | call_dev_opendialog_en_cuts self => dev_opendialog_en_cuts self
  | call_dev_opendialog_zh_cuts self => dev_opendialog_zh_cuts self
  end.

(** The calls in order, each paired with the handle it returned. *)
Fixpoint perform_all {G : Type} (cs : list Call) : M G (list (Call * CutSet)) :=
  match cs with
  | [] => ret []
  | c :: rest =>
      h <- perform c ;;
      hs <- perform_all rest ;;
      ret ((c, h) :: hs)
  end.

(** The cache a call goes through (one per decorated method) and its key. *)
Definition cache_of (c : Call) : string :=
  match c with
  | call_train_custom_cuts _ _ _ => "train_custom_cuts"
  | call_dev_custom_cuts _ _ _ => "dev_custom_cuts"
  | call_train_emilia_EN_cuts _ => "train_emilia_EN_cuts"
  | call_train_emilia_ZH_cuts _ => "train_emilia_ZH_cuts"
  | call_dev_emilia_EN_cuts _ => "dev_emilia_EN_cuts"
  | call_dev_emilia_ZH_cuts _ => "dev_emilia_ZH_cuts"
  | call_train_libritts_cuts _ => "train_libritts_cuts"
  | call_dev_libritts_cuts _ => "dev_libritts_cuts"
  | call_train_opendialog_en_cuts _ => "train_opendialog_en_cuts"
  | call_train_opendialog_zh_cuts _ => "train_opendialog_zh_cuts"
  | call_dev_opendialog_en_cuts _ => "dev_opendialog_en_cuts"
  | call_dev_opendialog_zh_cuts _ => "dev_opendialog_zh_cuts"
  end.

Definition key_of (c : Call) : Key :=
  match c with
  | call_train_custom_cuts self how f | call_dev_custom_cuts self how f =>
      (self_id self, key_args how f)
  | call_train_emilia_EN_cuts self | call_train_emilia_ZH_cuts self
  | call_dev_emilia_EN_cuts self | call_dev_emilia_ZH_cuts self
  | call_train_libritts_cuts self | call_dev_libritts_cuts self
  | call_train_opendialog_en_cuts self | call_train_opendialog_zh_cuts self
  | call_dev_opendialog_en_cuts self | call_dev_opendialog_zh_cuts self =>
      (self_id self, [])
  end.

(** The manifest a call opens when it misses its cache. *)
Definition path_of (c : Call) : string :=
  match c with
  | call_train_custom_cuts _ _ f | call_dev_custom_cuts _ _ f => arg_text f
  | call_train_emilia_EN_cuts self =>
      path_join (manifest_dir (args self)) "emilia_cuts_EN.jsonl.gz"
  | call_train_emilia_ZH_cuts self =>
      path_join (manifest_dir (args self)) "emilia_cuts_ZH.jsonl.gz"
  | call_dev_emilia_EN_cuts self =>
      path_join (manifest_dir (args self)) "emilia_cuts_EN-dev.jsonl.gz"
  | call_dev_emilia_ZH_cuts self =>
      path_join (manifest_dir (args self)) "emilia_cuts_ZH-dev.jsonl.gz"
  | call_train_libritts_cuts self =>
      path_join (manifest_dir (args self)) "libritts_cuts_train-all-shuf.jsonl.gz"
  | call_dev_libritts_cuts self =>
      path_join (manifest_dir (args self)) "libritts_cuts_dev-clean.jsonl.gz"
  | call_train_opendialog_en_cuts self =>
      path_join (manifest_dir (args self)) "opendialog_cuts_EN-train.jsonl.gz"
  | call_train_opendialog_zh_cuts self =>
      path_join (manifest_dir (args self)) "opendialog_cuts_ZH-train.jsonl.gz"
  | call_dev_opendialog_en_cuts self =>
      path_join (manifest_dir (args self)) "opendialog_cuts_EN-dev.jsonl.gz"
  | call_dev_opendialog_zh_cuts self =>
      path_join (manifest_dir (args self)) "opendialog_cuts_ZH-dev.jsonl.gz"
  end.

(** [competes c c']: [c'] goes through the same cache as [c] under another
    key, so it can push the entry of [c] towards eviction. *)
Definition competes (c c' : Call) : bool :=
  String.eqb (cache_of c') (cache_of c) &&
  (if Key_eq_dec (key_of c') (key_of c) then false else true).

(** The distinct keys that compete with [c] among [between]. *)
Definition competitors (c : Call) (between : list Call) : list Key :=
  nodup Key_eq_dec (map key_of (filter (competes c) between)).

(** A process at startup: nothing cached, nothing logged. *)
Definition startup {G : Type} (g : G) : Process G :=
  mk_Process g 0 (fun _ => []) [].

(** ** Notions the statements about the caches use *)

(** What one wrapped call does to the cache it goes through, given the
    handle a miss would load. *)
Definition cache_step (key : Key) (loaded : CutSet) (c : Cache) : Cache :=
  match cache_get key c with
  | Some v => (key, v) :: cache_remove key c
  | None => firstn maxsize ((key, loaded) :: c)
  end.

(** [held key v U c]: the cache [c] holds [v] under [key], and the entries
    used more recently than it have pairwise different keys, all from [U]. *)
Definition held (key : Key) (v : CutSet) (U : list Key) (c : Cache) : Prop :=
  exists front back,
    c = (front ++ (key, v) :: back)%list /\
    NoDup (map fst front) /\
    incl (map fst front) U /\
    ~ In key (map fst front).

(** The handle a call gets from [load_manifest_lazy] when it misses. *)
Definition loaded_by {G : Type} (c : Call) (p : Process G) : CutSet :=
  mk_CutSet (next_id p) (path_of c).

(** Every cached handle was allocated before [next_id], and [owner] names
    the cache and key it was loaded for. *)
Definition owned {G : Type} (owner : nat -> string * Key) (p : Process G)
  : Prop :=
  forall name k v,
    In (k, v) (lru_caches p name) ->
    (cutset_id v < next_id p)%nat /\ owner (cutset_id v) = (name, k).

(** ** A concrete ambient generator *)

(** A linear congruential generator, to run the constructors on. *)
Record LCG : Type := mk_LCG {
  lcg_state : Z
}.

Definition lcg_next (g : LCG) : Z :=
  (1103515245 * lcg_state g + 12345) mod 2147483648.

Definition lcg_randint (low high : Z) (g : LCG) : Z * LCG :=
  (low + lcg_next g mod (high - low), mk_LCG (lcg_next g)).

(** ** A concrete iteration *)

(** Six cuts, numbered, in batches of two; a sampler that shuffles starts
    its pass at the cut the entropy names. *)
Definition rotate (n : nat) (l : list nat) : list nat :=
  (skipn (n mod List.length l) l ++ firstn (n mod List.length l) l)%list.

Fixpoint in_twos (l : list nat) : list (list nat) :=
  match l with
  | a :: b :: rest => [a; b] :: in_twos rest
  | [a] => [[a]]
  | [] => []
  end.

Definition numbered_batches (s : Sampler) (e : nat) : list (list nat) :=
  in_twos (if shuffles s then rotate e (seq 0 6) else seq 0 6).

(** ** Configurations and manifests to run the module on *)

(** A configuration with bucketing, shuffling and drop-last off. *)
Definition plain_args : Namespace :=
  mk_Namespace "data/fbank" (VFloat 200.0%float) false 10 true false false true 4
    "AudioSamples".

(** The [n]-th of a family of pairwise different manifest names. *)
Definition numbered_manifest (n : nat) : string :=
  "cuts_" ++ NilEmpty.string_of_uint (Nat.to_uint n) ++ ".jsonl.gz".

(** ** Notions the further statements use *)

(** The instance a call is made on. *)
Definition self_of (c : Call) : TtsDataModule :=
  match c with
  | call_train_custom_cuts self _ _ | call_dev_custom_cuts self _ _
  | call_train_emilia_EN_cuts self | call_train_emilia_ZH_cuts self
  | call_dev_emilia_EN_cuts self | call_dev_emilia_ZH_cuts self
  | call_train_libritts_cuts self | call_dev_libritts_cuts self
  | call_train_opendialog_en_cuts self | call_train_opendialog_zh_cuts self
  | call_dev_opendialog_en_cuts self | call_dev_opendialog_zh_cuts self => self
  end.

(** The accessors that take the manifest as an argument. *)
Definition takes_manifest (c : Call) : bool :=
  match c with
  | call_train_custom_cuts _ _ _ | call_dev_custom_cuts _ _ _ => true
  | _ => false
  end.

(** A cache within the bound of [lru_cache], with one entry per key. *)
Definition cache_ok (c : Cache) : Prop :=
  NoDup (map fst c) /\ (List.length c <= maxsize)%nat.

(** The manifest a key of a manifest-taking accessor names. *)
Definition named_manifest (k : Key) : option string :=
  match snd k with
  | [item_str s] | [item_kwd_mark; item_str _; item_str s] => Some s
  | [item_Path p] | [item_kwd_mark; item_str _; item_Path p] => Some p
  | _ => None
  end.

(** The entries of a cache of a manifest-taking accessor: each is a handle
    on the manifest named in its key. *)
Definition keyed_by_manifest (c : Cache) : Prop :=
  forall k v, In (k, v) c -> named_manifest k = Some (manifest v).

(** [a] with other values for the two attributes the loaders never read. *)
Definition with_manifest_dir_and_strategy (a : Namespace) (dir strategy : string)
  : Namespace :=
  {| manifest_dir := dir;
     max_duration := max_duration a;
     bucketing_sampler := bucketing_sampler a;
     num_buckets := num_buckets a;
     on_the_fly_feats := on_the_fly_feats a;
     shuffle := shuffle a;
     drop_last := drop_last a;
     return_cuts := return_cuts a;
     num_workers := num_workers a;
     input_strategy := strategy |}.

(** What a converted command-line value looks like, by converter. *)
Definition converted (t : converter) (v : value) : Prop :=
  match t with
  | type_Path => exists s, v = VPath s
  | type_int => exists n, v = VInt n
  | type_str2bool => exists b, v = VBool b
  | type_str => exists s, v = VStr s
  end.

(** [pushed key L c]: since [key] was last used, the keys of [L] went
    through the cache [c], oldest first: either [key] is gone, or exactly
    the entries of [L] are ahead of it. *)
Definition pushed (key : Key) (L : list Key) (c : Cache) : Prop :=
  ~ In key (map fst c) \/
  exists front back v,
    c = (front ++ (key, v) :: back)%list /\ map fst front = rev L.

(** The two caches of the accessors that take the manifest as an argument
    hold, under every key, a handle on the manifest the key names. *)
Definition custom_caches_keyed {G : Type} (p : Process G) : Prop :=
  keyed_by_manifest (lru_caches p "train_custom_cuts") /\
  keyed_by_manifest (lru_caches p "dev_custom_cuts").

(** * Properties *)

(** ** The concrete generator meets torch's contract *)

Lemma lcg_randint_range (low high : Z) (g : LCG) :
  low < high -> low <= fst (lcg_randint low high g) < high.
Proof.
  intros Hlt. unfold lcg_randint. simpl.
  pose proof (Z.mod_pos_bound (lcg_next g) (high - low)) as Hb.
  lia.
Qed.

#[export] Instance LCG_Generator : Generator LCG := {
  randint := lcg_randint;
  randint_range := lcg_randint_range
}.

(** ** The concrete iteration meets the law of iteration *)

Lemma numbered_batches_unshuffled (s : Sampler) (e1 e2 : nat) :
  shuffles s = false -> numbered_batches s e1 = numbered_batches s e2.
Proof. unfold numbered_batches. intros ->. reflexivity. Qed.

#[export] Instance numbered_Iteration : Iteration (list nat) nat := {
  batches := numbered_batches;
  unshuffled_order := numbered_batches_unshuffled
}.

(** ** What the loader constructors return *)

Section LoaderFacts.

Context {G : Type} `{Generator G}.

Lemma train_dataloaders_result self cuts_train sampler_state_dict (p : Process G) :
  fst (train_dataloaders self cuts_train sampler_state_dict p) =
  {| dl_dataset :=
       {| ssd_return_text := Some true;
          ssd_return_tokens := Some true;
          ssd_return_spk_ids := Some true;
          ssd_feature_input_strategy := Some (feature_input_strategy self);
          ssd_return_cuts := Some (return_cuts (args self));
          ssd_return_audio := None |};
     dl_sampler :=
       match sampler_state_dict with
       | Some sd => load_state_dict (train_sampler_of self cuts_train) sd
       | None => train_sampler_of self cuts_train
       end;
     dl_batch_size := Some None;
     dl_num_workers := Some (num_workers (args self));
     dl_persistent_workers := Some false;
     dl_worker_init_fn := Some (mk_SeedWorkers (base_seed p)) |}.
Proof.
  unfold train_dataloaders, train_sampler_of, base_seed, bind, ret,
    logging_info, torch_randint.
  destruct (bucketing_sampler (args self)), sampler_state_dict; simpl;
    destruct (randint 0 100000 (generator p)); reflexivity.
Qed.

(** Logging does not advance the generator, so the draw is made from the
    generator the construction started with. *)
Lemma train_dataloaders_generator self cuts_train sampler_state_dict (p : Process G) :
  generator (snd (train_dataloaders self cuts_train sampler_state_dict p)) =
  snd (randint 0 100000 (generator p)).
Proof.
  unfold train_dataloaders, bind, ret, logging_info, torch_randint.
  destruct (bucketing_sampler (args self)), sampler_state_dict; simpl;
    destruct (randint 0 100000 (generator p)); reflexivity.
Qed.

Lemma base_seed_range (p : Process G) : 0 <= base_seed p < 100000.
Proof. unfold base_seed. apply randint_range. lia. Qed.

End LoaderFacts.

Lemma dev_dataloaders_result {G : Type} self cuts_valid (p : Process G) :
  fst (dev_dataloaders self cuts_valid p) =
  {| dl_dataset :=
       {| ssd_return_text := Some true;
          ssd_return_tokens := Some true;
          ssd_return_spk_ids := Some true;
          ssd_feature_input_strategy := Some (feature_input_strategy self);
          ssd_return_cuts := Some (return_cuts (args self));
          ssd_return_audio := None |};
     dl_sampler :=
       {| sampler_class := DynamicBucketingSampler;
          smp_cuts := cuts_valid;
          smp_max_duration := Some (max_duration (args self));
          smp_shuffle := Some false;
          smp_num_buckets := None;
          smp_buffer_size := None;
          smp_shuffle_buffer_size := None;
          smp_drop_last := None;
          loaded_state := None |};
     dl_batch_size := Some None;
     dl_num_workers := Some 2;
     dl_persistent_workers := Some false;
     dl_worker_init_fn := None |}.
Proof. reflexivity. Qed.

Lemma test_dataloaders_result {G : Type} self cuts (p : Process G) :
  fst (test_dataloaders self cuts p) =
  {| dl_dataset :=
       {| ssd_return_text := Some true;
          ssd_return_tokens := Some true;
          ssd_return_spk_ids := Some true;
          ssd_feature_input_strategy := Some (feature_input_strategy self);
          ssd_return_cuts := Some (return_cuts (args self));
          ssd_return_audio := Some true |};
     dl_sampler :=
       {| sampler_class := DynamicBucketingSampler;
          smp_cuts := cuts;
          smp_max_duration := Some (max_duration (args self));
          smp_shuffle := Some false;
          smp_num_buckets := None;
          smp_buffer_size := None;
          smp_shuffle_buffer_size := None;
          smp_drop_last := None;
          loaded_state := None |};
     dl_batch_size := Some None;
     dl_num_workers := Some (num_workers (args self));
     dl_persistent_workers := None;
     dl_worker_init_fn := None |}.
Proof. reflexivity. Qed.

(** ** Worker seeding *)

(** C1: the seed a training worker with id [W] installs at startup is the
    base seed drawn at construction plus [W]; so two constructions that draw
    the same base seed give every worker id the same seed. *)
Theorem worker_seed_is_base_seed_plus_worker_id :
  forall (G : Type) (gen : Generator G)
         (self1 self2 : TtsDataModule) (cuts1 cuts2 : CutSet)
         (sd1 sd2 : option StateDict) (p1 p2 : Process G),
    let dl1 := fst (train_dataloaders self1 cuts1 sd1 p1) in
    let dl2 := fst (train_dataloaders self2 cuts2 sd2 p2) in
    (forall (W : Z) (st : RandomState),
        current_seed (worker_startup dl1 W st) = base_seed p1 + W) /\
    (base_seed p1 = base_seed p2 ->
     forall (W : Z) (st1 st2 : RandomState),
       current_seed (worker_startup dl1 W st1) =
       current_seed (worker_startup dl2 W st2)).
Proof.
  intros G gen self1 self2 cuts1 cuts2 sd1 sd2 p1 p2 dl1 dl2.
  assert (Hseed : forall self cuts sd (p : Process G) W st,
             current_seed
               (worker_startup (fst (train_dataloaders self cuts sd p)) W st) =
             base_seed p + W).
  { intros self cuts sd p W st.
    rewrite train_dataloaders_result. reflexivity. }
  split.
  - intros W st. apply Hseed.
  - intros Heq W st1 st2. subst dl1 dl2.
    rewrite !Hseed, Heq. reflexivity.
Qed.

(** C10: the base seed a training-loader construction stores in the worker
    initialiser lies in [0, 100000), and the seed worker [W] installs lies
    in [W, 100000 + W). *)
Theorem base_seed_and_worker_seed_ranges :
  forall (G : Type) (gen : Generator G)
         (self : TtsDataModule) (cuts_train : CutSet)
         (sd : option StateDict) (p : Process G),
    let dl := fst (train_dataloaders self cuts_train sd p) in
    exists S : Z,
      dl_worker_init_fn dl = Some (mk_SeedWorkers S) /\
      0 <= S < 100000 /\
      forall (W : Z) (st : RandomState),
        W <= current_seed (worker_startup dl W st) < 100000 + W.
Proof.
  intros G gen self cuts_train sd p dl.
  exists (base_seed p).
  pose proof (base_seed_range p) as Hr.
  subst dl. rewrite train_dataloaders_result.
  split; [reflexivity | split; [exact Hr |]].
  intros W st. unfold worker_startup, SeedWorkers_call, fix_random_seed.
  cbn [dl_worker_init_fn current_seed seed]. lia.
Qed.

(** ** Samplers *)

(** C3: with bucketing on, the training sampler is a
    [DynamicBucketingSampler] given the configured max duration, shuffle
    flag, bucket count, a read-ahead buffer of 2000 times the bucket count,
    a shuffle buffer of 5000 times the bucket count and the drop-last flag;
    with bucketing off it is a [SimpleCutSampler] given the max duration and
    the shuffle flag and nothing else. *)
Theorem train_sampler_construction :
  forall (G : Type) (gen : Generator G)
         (self : TtsDataModule) (cuts_train : CutSet)
         (sd : option StateDict) (p : Process G),
    let s := dl_sampler (fst (train_dataloaders self cuts_train sd p)) in
    let a := args self in
    smp_cuts s = cuts_train /\
    smp_max_duration s = Some (max_duration a) /\
    smp_shuffle s = Some (shuffle a) /\
    (bucketing_sampler a = true ->
       sampler_class s = DynamicBucketingSampler /\
       smp_num_buckets s = Some (num_buckets a) /\
       smp_buffer_size s = Some (2000 * num_buckets a) /\
       smp_shuffle_buffer_size s = Some (5000 * num_buckets a) /\
       smp_drop_last s = Some (drop_last a)) /\
    (bucketing_sampler a = false ->
       sampler_class s = SimpleCutSampler /\
       smp_num_buckets s = None /\
       smp_buffer_size s = None /\
       smp_shuffle_buffer_size s = None /\
       smp_drop_last s = None).
Proof.
  intros G gen self cuts_train sd p s a. subst s a.
  rewrite train_dataloaders_result. unfold train_sampler_of.
  assert (H2 : num_buckets (args self) * 2000 = 2000 * num_buckets (args self))
    by lia.
  assert (H5 : num_buckets (args self) * 5000 = 5000 * num_buckets (args self))
    by lia.
  destruct (bucketing_sampler (args self)), sd; simpl;
    rewrite ?H2, ?H5;
    (split; [reflexivity | split; [reflexivity | split; [reflexivity |]]]);
    (split; intros Hflag; [try discriminate Hflag | try discriminate Hflag]);
    repeat split; reflexivity.
Qed.

(** C4: whatever the bucketing, shuffle and drop-last flags say, the dev and
    test constructors build a [DynamicBucketingSampler] over the cut
    collection they are given, with shuffling off and without drop-last,
    and never touch the ambient generator; so two constructions from the
    same cut collection, in any two processes, yield their batches in the
    same order, whatever randomness is about when they are iterated. *)
Theorem dev_test_samplers_never_shuffle :
  forall (G Batch Entropy : Type) (iteration : Iteration Batch Entropy)
         (self1 self2 : TtsDataModule) (cuts : CutSet)
         (p1 p2 : Process G) (e1 e2 : Entropy),
    max_duration (args self1) = max_duration (args self2) ->
    let dev1 := dev_dataloaders self1 cuts p1 in
    let dev2 := dev_dataloaders self2 cuts p2 in
    let test1 := test_dataloaders self1 cuts p1 in
    let test2 := test_dataloaders self2 cuts p2 in
    (sampler_class (dl_sampler (fst dev1)) = DynamicBucketingSampler /\
     smp_cuts (dl_sampler (fst dev1)) = cuts /\
     smp_shuffle (dl_sampler (fst dev1)) = Some false /\
     shuffles (dl_sampler (fst dev1)) = false /\
     smp_drop_last (dl_sampler (fst dev1)) = None /\
     drops_last (dl_sampler (fst dev1)) = false) /\
    (sampler_class (dl_sampler (fst test1)) = DynamicBucketingSampler /\
     smp_cuts (dl_sampler (fst test1)) = cuts /\
     smp_shuffle (dl_sampler (fst test1)) = Some false /\
     shuffles (dl_sampler (fst test1)) = false /\
     smp_drop_last (dl_sampler (fst test1)) = None /\
     drops_last (dl_sampler (fst test1)) = false) /\
    dl_sampler (fst dev1) = dl_sampler (fst dev2) /\
    dl_sampler (fst test1) = dl_sampler (fst test2) /\
    generator (snd dev1) = generator p1 /\
    generator (snd test1) = generator p1 /\
    batches (dl_sampler (fst dev1)) e1 = batches (dl_sampler (fst dev2)) e2 /\
    batches (dl_sampler (fst test1)) e1 = batches (dl_sampler (fst test2)) e2.
Proof.
  intros G Batch Entropy iteration self1 self2 cuts p1 p2 e1 e2 Hdur
    dev1 dev2 test1 test2.
  subst dev1 dev2 test1 test2.
  rewrite !dev_dataloaders_result, !test_dataloaders_result.
  cbn [dl_sampler]. rewrite Hdur.
  split; [repeat split; reflexivity|].
  split; [repeat split; reflexivity|].
  split; [reflexivity|]. split; [reflexivity|].
  split; [reflexivity|]. split; [reflexivity|].
  split; apply unshuffled_order; reflexivity.
Qed.

(** ** Datasets *)

(** C6: the test dataset requests raw audio and the train and dev datasets
    do not; all three request text, tokens and speaker ids, and request the
    cuts exactly when [return_cuts] is set. *)
Theorem datasets_by_phase :
  forall (G : Type) (gen : Generator G)
         (self : TtsDataModule) (cuts_train cuts_valid cuts : CutSet)
         (sd : option StateDict) (p : Process G),
    let train := dl_dataset (fst (train_dataloaders self cuts_train sd p)) in
    let validate := dl_dataset (fst (dev_dataloaders self cuts_valid p)) in
    let test := dl_dataset (fst (test_dataloaders self cuts p)) in
    requests_audio test = true /\
    requests_audio train = false /\
    requests_audio validate = false /\
    (forall d, In d [train; validate; test] ->
       ssd_return_text d = Some true /\
       ssd_return_tokens d = Some true /\
       ssd_return_spk_ids d = Some true /\
       ssd_return_cuts d = Some (return_cuts (args self))).
Proof.
  intros G gen self cuts_train cuts_valid cuts sd p train validate test.
  subst train validate test.
  rewrite train_dataloaders_result, dev_dataloaders_result,
    test_dataloaders_result.
  cbn [dl_dataset].
  split; [reflexivity|]. split; [reflexivity|]. split; [reflexivity|].
  intros d [<- | [<- | [<- | []]]]; repeat split; reflexivity.
Qed.

(** ** Resuming the training sampler *)

(** C7: a state dict handed to [train_dataloaders] ends up loaded in the
    sampler of the returned loader, whichever sampler class the bucketing
    flag selected and whatever the state dict holds; without one, the
    sampler has nothing loaded. *)
Theorem sampler_state_is_loaded_unchecked :
  forall (G : Type) (gen : Generator G)
         (self : TtsDataModule) (cuts_train : CutSet) (p : Process G),
    (forall state_dict : StateDict,
        let s := dl_sampler
                   (fst (train_dataloaders self cuts_train (Some state_dict) p)) in
        s = load_state_dict (train_sampler_of self cuts_train) state_dict /\
        loaded_state s = Some state_dict /\
        sampler_class s =
          (if bucketing_sampler (args self)
           then DynamicBucketingSampler else SimpleCutSampler)) /\
    (let s := dl_sampler (fst (train_dataloaders self cuts_train None p)) in
     s = train_sampler_of self cuts_train /\
     loaded_state s = None /\
     sampler_class s =
       (if bucketing_sampler (args self)
        then DynamicBucketingSampler else SimpleCutSampler)).
Proof.
  intros G gen self cuts_train p. split.
  - intros state_dict s. subst s.
    rewrite train_dataloaders_result. cbn [dl_sampler].
    unfold train_sampler_of.
    destruct (bucketing_sampler (args self)); repeat split; reflexivity.
  - intros s. subst s.
    rewrite train_dataloaders_result. cbn [dl_sampler].
    unfold train_sampler_of.
    destruct (bucketing_sampler (args self)); repeat split; reflexivity.
Qed.

(** ** Workers *)

(** C8: the train and test loaders get the configured number of workers,
    the dev loader gets 2, and no loader keeps its workers alive between
    epochs. *)
Theorem loader_workers :
  forall (G : Type) (gen : Generator G)
         (self : TtsDataModule) (cuts_train cuts_valid cuts : CutSet)
         (sd : option StateDict) (p : Process G),
    let train_dl := fst (train_dataloaders self cuts_train sd p) in
    let dev_dl := fst (dev_dataloaders self cuts_valid p) in
    let test_dl := fst (test_dataloaders self cuts p) in
    dl_num_workers train_dl = Some (num_workers (args self)) /\
    dl_num_workers test_dl = Some (num_workers (args self)) /\
    dl_num_workers dev_dl = Some 2 /\
    persistent train_dl = false /\
    persistent dev_dl = false /\
    persistent test_dl = false.
Proof.
  intros G gen self cuts_train cuts_valid cuts sd p train_dl dev_dl test_dl.
  subst train_dl dev_dl test_dl.
  rewrite train_dataloaders_result, dev_dataloaders_result,
    test_dataloaders_result.
  repeat split; reflexivity.
Qed.

(** ** The option registry *)

(** What [add_arguments] registers on an empty parser: option, converter
    and default, in source order. *)
Lemma registered_options :
  map (fun a => (option_string a, type a, default a)) (add_arguments []) =
  [ ("--manifest-dir", type_Path, VPath "data/fbank");
    ("--max-duration", type_int, VFloat 200.0%float);
    ("--bucketing-sampler", type_str2bool, VBool true);
    ("--num-buckets", type_int, VInt 30);
    ("--on-the-fly-feats", type_str2bool, VBool false);
    ("--shuffle", type_str2bool, VBool true);
    ("--drop-last", type_str2bool, VBool true);
    ("--return-cuts", type_str2bool, VBool false);
    ("--num-workers", type_int, VInt 8);
    ("--input-strategy", type_str, VStr "PrecomputedFeatures") ].
Proof. reflexivity. Qed.

(** With nothing on the command line every attribute is its default, and
    the namespace is [default_args]. *)
Lemma parse_args_defaults (py_int : string -> option Z)
    (str2bool : string -> option bool) :
  parse_args py_int str2bool (add_arguments []) [] =
  Some [ ("manifest_dir", VPath "data/fbank");
         ("max_duration", VFloat 200.0%float);
         ("bucketing_sampler", VBool true);
         ("num_buckets", VInt 30);
         ("on_the_fly_feats", VBool false);
         ("shuffle", VBool true);
         ("drop_last", VBool true);
         ("return_cuts", VBool false);
         ("num_workers", VInt 8);
         ("input_strategy", VStr "PrecomputedFeatures") ].
Proof. reflexivity. Qed.

Lemma default_args_parsed (py_int : string -> option Z)
    (str2bool : string -> option bool) :
  option_map to_Namespace (parse_args py_int str2bool (add_arguments []) []) =
  Some (Some default_args).
Proof. reflexivity. Qed.

(** C9: [--max-duration] is registered with [type=int], but its default is
    the float literal [200.0], which argparse stores unconverted: without
    the option on the command line [args.max_duration] is the float 200.0
    and not the integer 200, while [--max-duration 200] yields the integer.
    The other options have the listed defaults. *)
Theorem max_duration_default_is_the_float_200 :
  forall (py_int : string -> option Z) (str2bool : string -> option bool),
    exists ns : list (string * value),
      parse_args py_int str2bool (add_arguments []) [] = Some ns /\
      getattr ns "max_duration" = Some (VFloat 200.0%float) /\
      getattr ns "max_duration" <> Some (VInt 200) /\
      In (mk_argument "--max-duration" type_int (VFloat 200.0%float)
            ("Maximum pooled recordings duration (seconds) in a " ++
             "single batch. You can reduce it if it causes CUDA OOM."))
         (add_arguments []) /\
      getattr ns "num_buckets" = Some (VInt 30) /\
      getattr ns "num_workers" = Some (VInt 8) /\
      getattr ns "bucketing_sampler" = Some (VBool true) /\
      getattr ns "shuffle" = Some (VBool true) /\
      getattr ns "drop_last" = Some (VBool true) /\
      getattr ns "on_the_fly_feats" = Some (VBool false) /\
      getattr ns "return_cuts" = Some (VBool false).
Proof.
  intros py_int str2bool. eexists. split.
  - apply parse_args_defaults.
  - cbn [getattr String.eqb Ascii.eqb Bool.eqb].
    repeat split; try reflexivity.
    + discriminate.
    + unfold add_arguments. cbn [app]. right. left. reflexivity.
Qed.

(** Given on the command line, the value goes through [int]. *)
Lemma max_duration_given_is_an_int (py_int : string -> option Z)
    (str2bool : string -> option bool) (s : string) (n : Z) :
  py_int s = Some n ->
  argument_token (add_arguments []) s = true ->
  option_map (fun ns => getattr ns "max_duration")
    (parse_args py_int str2bool (add_arguments []) [("--max-duration", s)]) =
  Some (Some (VInt n)).
Proof.
  intros Hn Harg. unfold parse_args, recognised. cbn [forallb fst snd].
  rewrite Harg.
  destruct (resolve (add_arguments []) "--max-duration") eqn:Hr;
    [|vm_compute in Hr; discriminate Hr].
  cbn [andb]. vm_compute. rewrite Hn. reflexivity.
Qed.

(** ** The LRU caches of the manifest accessors *)

Section LruCache.

Local Open Scope list_scope.

Lemma cache_get_In key c v : cache_get key c = Some v -> In (key, v) c.
Proof.
  induction c as [|[k w] c IH]; simpl; [discriminate|].
  destruct (Key_eq_dec k key) as [->|Hne].
  - intros [= ->]. now left.
  - intros Hget. right. now apply IH.
Qed.

Lemma cache_get_None key c : cache_get key c = None -> ~ In key (map fst c).
Proof.
  induction c as [|[k w] c IH]; simpl; [tauto|].
  destruct (Key_eq_dec k key) as [->|Hne]; [discriminate|].
  intros Hget [Heq|Hin]; [contradiction | now apply IH].
Qed.

Lemma cache_get_skip key v front back :
  ~ In key (map fst front) ->
  cache_get key (front ++ (key, v) :: back) = Some v.
Proof.
  induction front as [|[k w] front IH]; simpl; intros Hnot.
  - destruct (Key_eq_dec key key); [reflexivity | contradiction].
  - destruct (Key_eq_dec k key) as [->|Hne]; [tauto|].
    apply IH. tauto.
Qed.

Lemma cache_remove_app key c1 c2 :
  cache_remove key (c1 ++ c2) = cache_remove key c1 ++ cache_remove key c2.
Proof.
  induction c1 as [|[k w] c1 IH]; simpl; [reflexivity|].
  destruct (Key_eq_dec k key); rewrite IH; reflexivity.
Qed.

Lemma cache_remove_keys key c x :
  In x (map fst (cache_remove key c)) <-> x <> key /\ In x (map fst c).
Proof.
  induction c as [|[k w] c IH]; simpl; [tauto|].
  destruct (Key_eq_dec k key) as [->|Hne]; simpl; rewrite IH.
  - split; [tauto|]. intros [Hx [Heq|Hin]]; [congruence | tauto].
  - split; [|tauto]. intros [<-|[Hx Hin]]; tauto.
Qed.

Lemma cache_remove_In key c e : In e (cache_remove key c) -> In e c.
Proof.
  induction c as [|[k w] c IH]; simpl; [tauto|].
  destruct (Key_eq_dec k key); simpl; tauto.
Qed.

Lemma cache_remove_NoDup key c :
  NoDup (map fst c) -> NoDup (map fst (cache_remove key c)).
Proof.
  induction c as [|[k w] c IH]; simpl; intros Hnd; [constructor|].
  inversion Hnd as [|? ? Hnot Hrest]; subst.
  destruct (Key_eq_dec k key); simpl; [now apply IH|].
  constructor; [|now apply IH].
  rewrite cache_remove_keys. tauto.
Qed.

Lemma firstn_past_prefix {A : Type} (n : nat) (l1 l2 : list A) (x : A) :
  (List.length l1 < n)%nat ->
  exists rest, firstn n (l1 ++ x :: l2) = l1 ++ x :: rest.
Proof.
  revert n. induction l1 as [|a l1 IH]; intros n Hlen; simpl in *.
  - destruct n as [|n]; [lia|]. simpl. eauto.
  - destruct n as [|n]; [lia|]. simpl.
    destruct (IH n ltac:(lia)) as [rest ->]. eauto.
Qed.

Lemma In_firstn {A : Type} (n : nat) (l : list A) (e : A) :
  In e (firstn n l) -> In e l.
Proof.
  revert l. induction n as [|n IH]; intros [|a l]; simpl; try tauto.
  intros [->|Hin]; [now left | right; now apply IH].
Qed.

Lemma cache_step_In_hit key loaded c v e :
  cache_get key c = Some v -> In e (cache_step key loaded c) -> In e c.
Proof.
  unfold cache_step. intros Hget. rewrite Hget. intros [<-|Hin].
  - now apply cache_get_In.
  - eapply cache_remove_In; eauto.
Qed.

Lemma cache_step_In_miss key loaded c e :
  cache_get key c = None ->
  In e (cache_step key loaded c) -> e = (key, loaded) \/ In e c.
Proof.
  unfold cache_step. intros ->. intros Hin.
  apply In_firstn in Hin. destruct Hin as [<-|Hin]; auto.
Qed.

Lemma held_get key v U c : held key v U c -> cache_get key c = Some v.
Proof.
  intros (front & back & -> & _ & _ & Hnot). now apply cache_get_skip.
Qed.

Lemma held_after_own_call key loaded c :
  exists v, held key v [] (cache_step key loaded c) /\
            v = match cache_get key c with Some w => w | None => loaded end.
Proof.
  unfold cache_step. destruct (cache_get key c) as [w|].
  - exists w. split; [|reflexivity].
    exists [], (cache_remove key c). simpl.
    repeat split; [constructor | intros ? [] | tauto].
  - exists loaded. split; [|reflexivity].
    destruct (firstn_past_prefix maxsize [] c (key, loaded)) as [rest Hrest].
    { unfold maxsize. simpl. lia. }
    cbn [app] in Hrest. rewrite Hrest.
    exists [], rest. simpl.
    repeat split; [constructor | intros ? [] | tauto].
Qed.

Lemma held_weaken key v U U' c : incl U U' -> held key v U c -> held key v U' c.
Proof.
  intros Hincl (front & back & Hc & Hnd & Hin & Hnot).
  exists front, back. repeat split; auto.
  intros x Hx. apply Hincl, Hin, Hx.
Qed.

Lemma held_same_key key v U loaded c :
  held key v U c -> held key v U (cache_step key loaded c).
Proof.
  intros Hheld. pose proof (held_get _ _ _ _ Hheld) as Hget.
  destruct (held_after_own_call key loaded c) as (w & Hw & Heq).
  rewrite Hget in Heq. subst w.
  eapply held_weaken; [|exact Hw]. intros ? [].
Qed.

Lemma held_other_key key v U key' loaded c :
  held key v U c ->
  key' <> key ->
  In key' U ->
  (List.length (nodup Key_eq_dec U) < maxsize)%nat ->
  held key v U (cache_step key' loaded c).
Proof.
  intros (front & back & -> & Hnd & Hin & Hnot) Hne HU Hsize.
  unfold cache_step.
  destruct (cache_get key' (front ++ (key, v) :: back)) as [w|] eqn:Hget.
  - rewrite cache_remove_app. simpl.
    destruct (Key_eq_dec key key') as [Heq|_]; [congruence|].
    exists ((key', w) :: cache_remove key' front), (cache_remove key' back).
    simpl. repeat split.
    + constructor.
      * rewrite cache_remove_keys. tauto.
      * now apply cache_remove_NoDup.
    + intros x [<-|Hx]; [assumption|].
      apply Hin. rewrite cache_remove_keys in Hx. tauto.
    + intros [Heq|Hx]; [congruence|].
      rewrite cache_remove_keys in Hx. tauto.
  - apply cache_get_None in Hget.
    rewrite map_app, in_app_iff in Hget.
    assert (Hnd' : NoDup (map fst ((key', loaded) :: front))).
    { simpl. constructor; tauto. }
    assert (Hin' : incl (map fst ((key', loaded) :: front)) (nodup Key_eq_dec U)).
    { intros x Hx. apply nodup_In. destruct Hx as [<-|Hx]; auto. }
    pose proof (NoDup_incl_length Hnd' Hin') as Hlen.
    rewrite length_map in Hlen.
    destruct (firstn_past_prefix maxsize ((key', loaded) :: front) back (key, v))
      as [rest Hrest]; [lia|].
    change ((key', loaded) :: front ++ (key, v) :: back)
      with (((key', loaded) :: front) ++ (key, v) :: back).
    rewrite Hrest.
    exists ((key', loaded) :: front), rest.
    repeat split; auto.
    + intros x Hx. destruct Hx as [<-|Hx]; auto.
    + simpl. intros [Heq|Hx]; [congruence | tauto].
Qed.

(** *** The accessors as steps on the process *)

Section AccessorFacts.

Context {G : Type}.

Lemma lru_cache_load name key msg path (p : Process G) :
  lru_cache name key (logging_info msg ;; load_manifest_lazy path) p =
  match cache_get key (lru_caches p name) with
  | Some v =>
      (v, set_cache name
            (cache_step key (mk_CutSet (next_id p) path) (lru_caches p name)) p)
  | None =>
      (mk_CutSet (next_id p) path,
       set_cache name
         (cache_step key (mk_CutSet (next_id p) path) (lru_caches p name))
         (mk_Process (generator p) (S (next_id p)) (lru_caches p)
            (log p ++ [msg])))
  end.
Proof.
  unfold lru_cache, cache_step, bind, logging_info, load_manifest_lazy.
  cbn [lru_caches next_id generator log].
  destruct (cache_get key (lru_caches p name)) eqn:Hget; reflexivity.
Qed.

Lemma perform_run (c : Call) (p : Process G) :
  exists msg,
    perform c p =
    match cache_get (key_of c) (lru_caches p (cache_of c)) with
    | Some v =>
        (v, set_cache (cache_of c)
              (cache_step (key_of c) (loaded_by c p) (lru_caches p (cache_of c))) p)
    | None =>
        (loaded_by c p,
         set_cache (cache_of c)
           (cache_step (key_of c) (loaded_by c p) (lru_caches p (cache_of c)))
           (mk_Process (generator p) (S (next_id p)) (lru_caches p)
              (log p ++ [msg])))
    end.
Proof.
  destruct c; eexists; apply lru_cache_load.
Qed.

Lemma perform_result (c : Call) (p : Process G) :
  fst (perform c p) =
  match cache_get (key_of c) (lru_caches p (cache_of c)) with
  | Some v => v
  | None => loaded_by c p
  end.
Proof.
  destruct (perform_run c p) as [msg ->].
  destruct (cache_get (key_of c) (lru_caches p (cache_of c))); reflexivity.
Qed.

Lemma perform_next_id (c : Call) (p : Process G) :
  next_id (snd (perform c p)) =
  match cache_get (key_of c) (lru_caches p (cache_of c)) with
  | Some _ => next_id p
  | None => S (next_id p)
  end.
Proof.
  destruct (perform_run c p) as [msg ->].
  destruct (cache_get (key_of c) (lru_caches p (cache_of c))); reflexivity.
Qed.

Lemma perform_caches (c : Call) (p : Process G) (name : string) :
  lru_caches (snd (perform c p)) name =
  if String.eqb name (cache_of c)
  then cache_step (key_of c) (loaded_by c p) (lru_caches p (cache_of c))
  else lru_caches p name.
Proof.
  destruct (perform_run c p) as [msg ->].
  destruct (cache_get (key_of c) (lru_caches p (cache_of c))); reflexivity.
Qed.

Lemma perform_all_cons (c : Call) (rest : list Call) (p : Process G) :
  perform_all (c :: rest) p =
  ((c, fst (perform c p)) :: fst (perform_all rest (snd (perform c p))),
   snd (perform_all rest (snd (perform c p)))).
Proof.
  cbn [perform_all]. unfold bind, ret.
  destruct (perform c p) as [h p1]. cbn [fst snd].
  destruct (perform_all rest p1) as [hs p2]. reflexivity.
Qed.

(** An entry stays in its cache while fewer than [maxsize] distinct other
    keys go through that cache. *)
Lemma held_through_calls (c : Call) (h : CutSet) (U : list Key)
    (between : list Call) :
  (List.length (nodup Key_eq_dec U) < maxsize)%nat ->
  (forall c', In c' between -> competes c c' = true -> In (key_of c') U) ->
  forall p : Process G,
    held (key_of c) h U (lru_caches p (cache_of c)) ->
    held (key_of c) h U
      (lru_caches (snd (perform_all between p)) (cache_of c)).
Proof.
  intros Hsize. induction between as [|c' rest IH]; intros HU p Hheld.
  - exact Hheld.
  - rewrite perform_all_cons. cbn [snd].
    apply IH; [intros; apply HU; simpl; auto|].
    rewrite perform_caches.
    destruct (String.eqb (cache_of c) (cache_of c')) eqn:Hname; [|exact Hheld].
    apply String.eqb_eq in Hname. rewrite <- Hname.
    destruct (Key_eq_dec (key_of c') (key_of c)) as [Hkey|Hkey].
    + rewrite Hkey. now apply held_same_key.
    + apply held_other_key; auto.
      apply HU; [now left|].
      unfold competes. rewrite Hname, String.eqb_refl.
      destruct (Key_eq_dec (key_of c') (key_of c)); [contradiction|reflexivity].
Qed.

End AccessorFacts.

End LruCache.

(** *** Which call a handle belongs to *)

Section Ownership.

Context {G : Type}.

Local Open Scope list_scope.

Lemma perform_owned (owner : nat -> string * Key) (c : Call) (p : Process G) :
  owned owner p ->
  exists owner',
    owned owner' (snd (perform c p)) /\
    (forall i, (i < next_id p)%nat -> owner' i = owner i) /\
    (next_id p <= next_id (snd (perform c p)))%nat /\
    (cutset_id (fst (perform c p)) < next_id (snd (perform c p)))%nat /\
    owner' (cutset_id (fst (perform c p))) = (cache_of c, key_of c).
Proof.
  intros Hown.
  rewrite perform_result, perform_next_id.
  destruct (cache_get (key_of c) (lru_caches p (cache_of c))) as [v|] eqn:Hget.
  - exists owner.
    pose proof (cache_get_In _ _ _ Hget) as Hin.
    destruct (Hown _ _ _ Hin) as [Hlt Hv].
    split; [|auto].
    intros name k w. rewrite perform_caches, perform_next_id, Hget.
    destruct (String.eqb name (cache_of c)) eqn:Hname; [|apply Hown].
    apply String.eqb_eq in Hname. subst name. intros He.
    apply (cache_step_In_hit _ _ _ _ _ Hget) in He. now apply Hown.
  - exists (fun i => if Nat.eqb i (next_id p)
                     then (cache_of c, key_of c) else owner i).
    assert (Hold : forall name k v,
               In (k, v) (lru_caches p name) ->
               (cutset_id v < S (next_id p))%nat /\
               (if Nat.eqb (cutset_id v) (next_id p)
                then (cache_of c, key_of c) else owner (cutset_id v)) = (name, k)).
    { intros name k v Hin. destruct (Hown _ _ _ Hin) as [Hlt Hv].
      split; [lia|].
      destruct (Nat.eqb_spec (cutset_id v) (next_id p)); [lia | exact Hv]. }
    split; [|split; [|split; [|split]]].
    + intros name k v. rewrite perform_caches, perform_next_id, Hget.
      destruct (String.eqb name (cache_of c)) eqn:Hname; [|apply Hold].
      apply String.eqb_eq in Hname. subst name. intros He.
      apply (cache_step_In_miss _ _ _ _ Hget) in He.
      destruct He as [[= -> ->]|He]; [|now apply Hold].
      unfold loaded_by. cbn [cutset_id]. rewrite Nat.eqb_refl.
      split; [lia | reflexivity].
    + intros i Hi. destruct (Nat.eqb_spec i (next_id p)); [lia | reflexivity].
    + lia.
    + unfold loaded_by. cbn [cutset_id]. lia.
    + unfold loaded_by. cbn [cutset_id]. rewrite Nat.eqb_refl. reflexivity.
Qed.

Lemma perform_all_owned (cs : list Call) :
  forall (owner : nat -> string * Key) (p : Process G),
    owned owner p ->
    exists owner',
      owned owner' (snd (perform_all cs p)) /\
      (forall i, (i < next_id p)%nat -> owner' i = owner i) /\
      (next_id p <= next_id (snd (perform_all cs p)))%nat /\
      (forall c h, In (c, h) (fst (perform_all cs p)) ->
         (cutset_id h < next_id (snd (perform_all cs p)))%nat /\
         owner' (cutset_id h) = (cache_of c, key_of c)).
Proof.
  induction cs as [|c rest IH]; intros owner p Hown.
  - exists owner. cbn.
    split; [exact Hown|split; [auto|split; [lia|intros c h []]]].
  - rewrite perform_all_cons. cbn [fst snd].
    destruct (perform_owned owner c p Hown)
      as (owner1 & Hown1 & Hagree1 & Hle1 & Hlt1 & Hh1).
    destruct (IH owner1 (snd (perform c p)) Hown1)
      as (owner2 & Hown2 & Hagree2 & Hle2 & Hhist).
    exists owner2. split; [exact Hown2|split; [|split]].
    + intros i Hi. rewrite Hagree2 by lia. now apply Hagree1.
    + lia.
    + intros c' h [[= <- <-]|Hin]; [|now apply Hhist].
      split; [lia|]. rewrite Hagree2 by lia. exact Hh1.
Qed.

(** From a process with empty caches, two calls that got the same object
    went through the same cache with the same key. *)
Lemma same_identity_same_key (cs : list Call) (p : Process G) :
  (forall name, lru_caches p name = []) ->
  forall c1 h1 c2 h2,
    In (c1, h1) (fst (perform_all cs p)) ->
    In (c2, h2) (fst (perform_all cs p)) ->
    cutset_id h1 = cutset_id h2 ->
    cache_of c1 = cache_of c2 /\ key_of c1 = key_of c2.
Proof.
  intros Hempty c1 h1 c2 h2 H1 H2 Hid.
  destruct (perform_all_owned cs (fun _ => (EmptyString, (O, []))) p)
    as (owner & _ & _ & _ & Hhist).
  { intros name k v. rewrite Hempty. intros []. }
  destruct (Hhist _ _ H1) as [_ Ho1].
  destruct (Hhist _ _ H2) as [_ Ho2].
  rewrite Hid in Ho1. rewrite Ho1 in Ho2.
  now inversion Ho2.
Qed.

(** A call repeated after [between] hits its cache while fewer than
    [maxsize] distinct other keys went through that cache in between. *)
Lemma repeated_call_hits (c : Call) (between : list Call) (p : Process G) :
  (List.length (competitors c between) < maxsize)%nat ->
  let p2 := snd (perform_all between (snd (perform c p))) in
  fst (perform c p2) = fst (perform c p) /\
  next_id (snd (perform c p2)) = next_id p2.
Proof.
  intros Hsize p2.
  destruct (held_after_own_call (key_of c) (loaded_by c p)
              (lru_caches p (cache_of c))) as (v & Hheld & Hv).
  rewrite <- perform_result in Hv. subst v.
  assert (Hheld2 : held (key_of c) (fst (perform c p))
                     (map key_of (filter (competes c) between))
                     (lru_caches p2 (cache_of c))).
  { subst p2. apply held_through_calls.
    - exact Hsize.
    - intros c' Hin Hcomp. apply in_map, filter_In. auto.
    - rewrite perform_caches, String.eqb_refl.
      eapply held_weaken; [|exact Hheld]. intros ? []. }
  apply held_get in Hheld2.
  rewrite perform_result, perform_next_id, Hheld2. auto.
Qed.

End Ownership.

(** ** Memoisation of the manifest accessors *)

(** The key of a call of [train_custom_cuts] or [dev_custom_cuts] names the
    manifest the call asks for. *)
Lemma custom_key_names_path (c : Call) :
  takes_manifest c = true -> named_manifest (key_of c) = Some (path_of c).
Proof.
  destruct c as [self how [s|p]|self how [s|p]| | | | | | | | | |];
    simpl; intros Ht; try discriminate Ht; destruct how; reflexivity.
Qed.

(** C5, as amended: a call of an accessor on the same instance with the same
    argument passed the same way, repeated after any calls of any
    accessors, returns the handle of the first call and loads nothing,
    provided fewer than 128 distinct other keys went through that
    accessor's cache in between; and in a process that started with empty
    caches, calls that differ in accessor or in cache key never return the
    same object, in particular calls of [train_custom_cuts] or
    [dev_custom_cuts] that ask for different paths. *)
Theorem manifest_accessors_memoise_within_lru_bound :
  forall (G : Type),
    (forall (c : Call) (between : list Call) (p : Process G),
        (List.length (competitors c between) < maxsize)%nat ->
        let p2 := snd (perform_all between (snd (perform c p))) in
        fst (perform c p2) = fst (perform c p) /\
        next_id (snd (perform c p2)) = next_id p2) /\
    (forall (cs : list Call) (p : Process G),
        (forall name, lru_caches p name = []) ->
        forall c1 h1 c2 h2,
          In (c1, h1) (fst (perform_all cs p)) ->
          In (c2, h2) (fst (perform_all cs p)) ->
          cache_of c1 <> cache_of c2 \/ key_of c1 <> key_of c2 ->
          cutset_id h1 <> cutset_id h2) /\
    (forall (cs : list Call) (p : Process G),
        (forall name, lru_caches p name = []) ->
        forall c1 h1 c2 h2,
          In (c1, h1) (fst (perform_all cs p)) ->
          In (c2, h2) (fst (perform_all cs p)) ->
          takes_manifest c1 = true ->
          takes_manifest c2 = true ->
          path_of c1 <> path_of c2 ->
          cutset_id h1 <> cutset_id h2).
Proof.
  intros G. split; [|split].
  - intros c between p Hsize. now apply repeated_call_hits.
  - intros cs p Hempty c1 h1 c2 h2 H1 H2 Hdiff Hid.
    destruct (same_identity_same_key cs p Hempty _ _ _ _ H1 H2 Hid).
    tauto.
  - intros cs p Hempty c1 h1 c2 h2 H1 H2 Ht1 Ht2 Hpath Hid.
    destruct (same_identity_same_key cs p Hempty _ _ _ _ H1 H2 Hid)
      as [_ Hkey].
    apply custom_key_names_path in Ht1, Ht2.
    rewrite Hkey, Ht2 in Ht1. injection Ht1 as Heq. auto.
Qed.

(** C5, as stated, fails: after 128 other manifests went through
    [train_custom_cuts], the same call on the same instance with the same
    path loads the manifest again and returns a new object. *)
Lemma lru_eviction_reloads_the_manifest :
  let self := mk_TtsDataModule 0 default_args in
  let c := call_train_custom_cuts self positional (arg_str "data/fbank/custom_cuts_train.jsonl.gz") in
  let between :=
    map (fun n => call_train_custom_cuts self positional (arg_str (numbered_manifest n))) (seq 1 128) in
  let p := startup tt in
  let p2 := snd (perform_all between (snd (perform c p))) in
  cutset_id (fst (perform c p2)) <> cutset_id (fst (perform c p)) /\
  next_id (snd (perform c p2)) = S (next_id p2).
Proof.
  vm_compute. split; [discriminate | reflexivity].
Qed.

(** ** The theorems at concrete inputs *)

(** Two constructions by different instances, from generators in the same
    state: worker 3 is seeded alike in both. *)
Lemma worker_seed_is_base_seed_plus_worker_id_witness :
  let p := startup (mk_LCG 42) in
  let dl1 := fst (train_dataloaders (mk_TtsDataModule 0 default_args)
                    (mk_CutSet 0 "train.jsonl.gz") None p) in
  let dl2 := fst (train_dataloaders (mk_TtsDataModule 1 plain_args)
                    (mk_CutSet 1 "other.jsonl.gz") (Some [("epoch", VInt 3)]) p) in
  base_seed p = 96027 /\
  current_seed (worker_startup dl1 3 (mk_RandomState 0)) = 96027 + 3 /\
  current_seed (worker_startup dl1 3 (mk_RandomState 0)) =
  current_seed (worker_startup dl2 3 (mk_RandomState 7)).
Proof.
  intros p dl1 dl2.
  pose proof (worker_seed_is_base_seed_plus_worker_id LCG LCG_Generator
                (mk_TtsDataModule 0 default_args) (mk_TtsDataModule 1 plain_args)
                (mk_CutSet 0 "train.jsonl.gz") (mk_CutSet 1 "other.jsonl.gz")
                None (Some [("epoch", VInt 3)]) p p) as [Hseed Hsame].
  split; [reflexivity|]. split.
  - exact (Hseed 3 (mk_RandomState 0)).
  - exact (Hsame eq_refl 3 (mk_RandomState 0) (mk_RandomState 7)).
Defined.

(** The default configuration selects the bucketing sampler, [plain_args]
    the simple one. *)
Lemma train_sampler_construction_witness :
  let p := startup (mk_LCG 42) in
  let cuts := mk_CutSet 0 "train.jsonl.gz" in
  let s1 := dl_sampler (fst (train_dataloaders (mk_TtsDataModule 0 default_args)
                               cuts None p)) in
  let s2 := dl_sampler (fst (train_dataloaders (mk_TtsDataModule 1 plain_args)
                               cuts None p)) in
  (sampler_class s1 = DynamicBucketingSampler /\
   smp_num_buckets s1 = Some 30 /\
   smp_buffer_size s1 = Some (2000 * 30) /\
   smp_shuffle_buffer_size s1 = Some (5000 * 30) /\
   smp_drop_last s1 = Some true) /\
  (sampler_class s2 = SimpleCutSampler /\
   smp_num_buckets s2 = None /\
   smp_buffer_size s2 = None /\
   smp_shuffle_buffer_size s2 = None /\
   smp_drop_last s2 = None).
Proof.
  intros p cuts s1 s2. split.
  - exact (proj1 (proj2 (proj2 (proj2
             (train_sampler_construction LCG LCG_Generator
                (mk_TtsDataModule 0 default_args) cuts None p)))) eq_refl).
  - exact (proj2 (proj2 (proj2 (proj2
             (train_sampler_construction LCG LCG_Generator
                (mk_TtsDataModule 1 plain_args) cuts None p)))) eq_refl).
Defined.

(** Two configurations that differ in every flag but share the max
    duration build the same dev sampler and the same test sampler, and the
    dev batches come in the same order for different randomness. *)
Lemma dev_test_samplers_never_shuffle_witness :
  let cuts := mk_CutSet 0 "dev.jsonl.gz" in
  let self1 := mk_TtsDataModule 0 default_args in
  let self2 := mk_TtsDataModule 1 plain_args in
  max_duration (args self1) = max_duration (args self2) /\
  shuffle (args self1) = true /\
  dl_sampler (fst (dev_dataloaders self1 cuts (startup tt))) =
  dl_sampler (fst (dev_dataloaders self2 cuts (startup tt))) /\
  dl_sampler (fst (test_dataloaders self1 cuts (startup tt))) =
  dl_sampler (fst (test_dataloaders self2 cuts (startup tt))) /\
  shuffles (dl_sampler (fst (dev_dataloaders self1 cuts (startup tt)))) = false /\
  numbered_batches (dl_sampler (fst (dev_dataloaders self1 cuts (startup tt)))) 1 =
  numbered_batches (dl_sampler (fst (dev_dataloaders self2 cuts (startup tt)))) 4.
Proof.
  intros cuts self1 self2.
  pose proof (dev_test_samplers_never_shuffle unit (list nat) nat
                numbered_Iteration self1 self2 cuts
                (startup tt) (startup tt) 1%nat 4%nat eq_refl)
    as [[_ [_ [_ [Hshuffle _]]]] [_ [Hdev [Htest [_ [_ [Hbatches _]]]]]]].
  split; [reflexivity|]. split; [reflexivity|].
  split; [exact Hdev|]. split; [exact Htest|].
  split; [exact Hshuffle | exact Hbatches].
Defined.

(** The training sampler of the default configuration shuffles: under the
    concrete iteration its batches come in another order for other
    randomness, unlike those of the dev sampler. *)
Example train_batches_depend_on_randomness :
  let dl := fst (train_dataloaders (mk_TtsDataModule 0 default_args)
                   (mk_CutSet 0 "train.jsonl.gz") None (startup (mk_LCG 42))) in
  numbered_batches (dl_sampler dl) 1 = [[1; 2]; [3; 4]; [5; 0]]%nat /\
  numbered_batches (dl_sampler dl) 4 = [[4; 5]; [0; 1]; [2; 3]]%nat.
Proof. split; reflexivity. Qed.

(** The test dataset of the default configuration. *)
Lemma datasets_by_phase_witness :
  let self := mk_TtsDataModule 0 default_args in
  let test := dl_dataset (fst (test_dataloaders self (mk_CutSet 0 "test.jsonl.gz")
                                 (startup (mk_LCG 42)))) in
  In test [dl_dataset (fst (train_dataloaders self (mk_CutSet 1 "train.jsonl.gz")
                              None (startup (mk_LCG 42))));
           dl_dataset (fst (dev_dataloaders self (mk_CutSet 2 "dev.jsonl.gz")
                              (startup (mk_LCG 42))));
           test] /\
  ssd_return_text test = Some true /\
  ssd_return_tokens test = Some true /\
  ssd_return_spk_ids test = Some true /\
  ssd_return_cuts test = Some false.
Proof.
  intros self test.
  assert (Hin : In test
            [dl_dataset (fst (train_dataloaders self (mk_CutSet 1 "train.jsonl.gz")
                                None (startup (mk_LCG 42))));
             dl_dataset (fst (dev_dataloaders self (mk_CutSet 2 "dev.jsonl.gz")
                                (startup (mk_LCG 42))));
             test]).
  { right. right. left. reflexivity. }
  split; [exact Hin|].
  exact (proj2 (proj2 (proj2
           (datasets_by_phase LCG LCG_Generator self
              (mk_CutSet 1 "train.jsonl.gz") (mk_CutSet 2 "dev.jsonl.gz")
              (mk_CutSet 0 "test.jsonl.gz") None (startup (mk_LCG 42)))))
           test Hin).
Defined.

(** With 127 other manifests in between the handle is still the cached
    one, and handles of two different paths differ. *)
Lemma manifest_accessors_memoise_within_lru_bound_witness :
  let self := mk_TtsDataModule 0 default_args in
  let c := call_train_custom_cuts self positional (arg_str "data/fbank/custom_cuts_train.jsonl.gz") in
  let c' := call_train_custom_cuts self positional (arg_str "data/fbank/custom_cuts_dev.jsonl.gz") in
  let between :=
    map (fun n => call_train_custom_cuts self positional (arg_str (numbered_manifest n))) (seq 1 127) in
  let p := startup tt in
  let p2 := snd (perform_all between (snd (perform c p))) in
  (List.length (competitors c between) < maxsize)%nat /\
  fst (perform c p2) = fst (perform c p) /\
  next_id (snd (perform c p2)) = next_id p2 /\
  cutset_id (mk_CutSet 0 "data/fbank/custom_cuts_train.jsonl.gz") <>
  cutset_id (mk_CutSet 1 "data/fbank/custom_cuts_dev.jsonl.gz").
Proof.
  intros self c c' between p p2.
  assert (Hsize : (List.length (competitors c between) < maxsize)%nat).
  { vm_compute. lia. }
  destruct (manifest_accessors_memoise_within_lru_bound unit)
    as [Hhit [_ Hdistinct]].
  split; [exact Hsize|].
  destruct (Hhit c between p Hsize) as [Hsame Hnoload].
  split; [exact Hsame|]. split; [exact Hnoload|].
  apply (Hdistinct [c; c'] p (fun _ => eq_refl) c _ c' _).
  - left. reflexivity.
  - right. left. reflexivity.
  - reflexivity.
  - reflexivity.
  - discriminate.
Defined.

(** The training loader of the default configuration, from a generator in
    state 42. *)
Example train_dataloaders_default_run :
  fst (train_dataloaders (mk_TtsDataModule 0 default_args)
         (mk_CutSet 0 "train.jsonl.gz") None (startup (mk_LCG 42))) =
  mk_DataLoader
    (mk_SpeechSynthesisDataset (Some true) (Some true) (Some true)
       (Some PrecomputedFeatures) (Some false) None)
    (mk_Sampler DynamicBucketingSampler (mk_CutSet 0 "train.jsonl.gz")
       (Some (VFloat 200.0%float)) (Some true) (Some 30) (Some 60000)
       (Some 150000) (Some true) None)
    (Some None) (Some 8) (Some false) (Some (mk_SeedWorkers 96027)).
Proof. reflexivity. Qed.

(** What a resumed construction without bucketing logs. *)
Example train_dataloaders_resumed_log :
  log (snd (train_dataloaders (mk_TtsDataModule 0 plain_args)
              (mk_CutSet 0 "train.jsonl.gz") (Some [("epoch", VInt 3)])
              (startup (mk_LCG 42)))) =
  [ "About to create train dataset"; "Using SimpleCutSampler.";
    "About to create train dataloader"; "Loading sampler state dict" ].
Proof. reflexivity. Qed.

(** A second call of a fixed accessor returns the first call's handle and
    logs nothing. *)
Example train_libritts_cuts_twice :
  let self := mk_TtsDataModule 0 default_args in
  let run := perform_all [call_train_libritts_cuts self; call_train_libritts_cuts self]
               (startup tt) in
  map snd (fst run) =
    [ mk_CutSet 0 "data/fbank/libritts_cuts_train-all-shuf.jsonl.gz";
      mk_CutSet 0 "data/fbank/libritts_cuts_train-all-shuf.jsonl.gz" ] /\
  List.length (log (snd run)) = 1%nat.
Proof. split; reflexivity. Qed.

Example dest_max_duration :
  map dest (add_arguments []) =
  [ "manifest_dir"; "max_duration"; "bucketing_sampler"; "num_buckets";
    "on_the_fly_feats"; "shuffle"; "drop_last"; "return_cuts"; "num_workers";
    "input_strategy" ].
Proof. reflexivity. Qed.

(** The cache key holds the instance: a second instance asking for the same
    path loads the manifest again. *)
Example train_custom_cuts_other_instance :
  let run :=
    perform_all
      [ call_train_custom_cuts (mk_TtsDataModule 0 default_args) positional (arg_str "cuts.jsonl.gz");
        call_train_custom_cuts (mk_TtsDataModule 1 default_args) positional (arg_str "cuts.jsonl.gz") ]
      (startup tt) in
  map snd (fst run) =
    [ mk_CutSet 0 "cuts.jsonl.gz"; mk_CutSet 1 "cuts.jsonl.gz" ].
Proof. reflexivity. Qed.

(** * Further properties *)

(** ** Seeding and the ambient generator *)

Section GeneratorFacts.

Context {G : Type}.

Lemma perform_generator (c : Call) (p : Process G) :
  generator (snd (perform c p)) = generator p.
Proof.
  destruct (perform_run c p) as [msg ->].
  destruct (cache_get (key_of c) (lru_caches p (cache_of c))); reflexivity.
Qed.

Lemma perform_all_generator (cs : list Call) (p : Process G) :
  generator (snd (perform_all cs p)) = generator p.
Proof.
  revert p. induction cs as [|c rest IH]; intros p; [reflexivity|].
  rewrite perform_all_cons. cbn [snd]. rewrite IH. apply perform_generator.
Qed.

End GeneratorFacts.

(** X1: two workers of one training loader with different ids install
    different seeds, whatever random state each had before. *)
Theorem workers_get_distinct_seeds :
  forall (G : Type) (gen : Generator G)
         (self : TtsDataModule) (cuts_train : CutSet)
         (sd : option StateDict) (p : Process G)
         (W1 W2 : Z) (st1 st2 : RandomState),
    W1 <> W2 ->
    let dl := fst (train_dataloaders self cuts_train sd p) in
    current_seed (worker_startup dl W1 st1) <>
    current_seed (worker_startup dl W2 st2).
Proof.
  intros G gen self cuts_train sd p W1 W2 st1 st2 Hne dl. subst dl.
  rewrite train_dataloaders_result.
  unfold worker_startup, SeedWorkers_call, fix_random_seed.
  cbn [dl_worker_init_fn current_seed seed]. lia.
Qed.

Lemma workers_get_distinct_seeds_witness :
  let dl := fst (train_dataloaders (mk_TtsDataModule 0 default_args)
                   (mk_CutSet 0 "train.jsonl.gz") None (startup (mk_LCG 42))) in
  current_seed (worker_startup dl 0 (mk_RandomState 5)) <>
  current_seed (worker_startup dl 1 (mk_RandomState 5)).
Proof.
  intros dl.
  apply (workers_get_distinct_seeds LCG LCG_Generator
           (mk_TtsDataModule 0 default_args) (mk_CutSet 0 "train.jsonl.gz")
           None (startup (mk_LCG 42)) 0 1 (mk_RandomState 5) (mk_RandomState 5)).
  discriminate.
Defined.

(** X2: manifest accessor calls and dev and test constructions leave the
    ambient generator as it is, so a training loader built after them draws
    the base seed it would have drawn before them. *)
Theorem base_seed_unaffected_by_accessors_and_eval_loaders :
  forall (G : Type) (gen : Generator G)
         (self : TtsDataModule) (cuts_valid cuts : CutSet)
         (cs : list Call) (p : Process G),
    base_seed (snd (perform_all cs p)) = base_seed p /\
    base_seed (snd (dev_dataloaders self cuts_valid p)) = base_seed p /\
    base_seed (snd (test_dataloaders self cuts p)) = base_seed p /\
    base_seed
      (snd (test_dataloaders self cuts
              (snd (dev_dataloaders self cuts_valid
                      (snd (perform_all cs p)))))) = base_seed p.
Proof.
  intros G gen self cuts_valid cuts cs p.
  unfold base_seed.
  assert (Hdev : forall q : Process G,
             generator (snd (dev_dataloaders self cuts_valid q)) = generator q)
    by reflexivity.
  assert (Htest : forall q : Process G,
             generator (snd (test_dataloaders self cuts q)) = generator q)
    by reflexivity.
  rewrite !Htest, !Hdev, perform_all_generator. repeat split; reflexivity.
Qed.

(** X3: every training-loader construction advances the generator by its
    one draw: a second construction in the same process gets the seed drawn
    from the generator the first one left behind. *)
Theorem successive_train_loaders_draw_successive_seeds :
  forall (G : Type) (gen : Generator G)
         (self1 self2 : TtsDataModule) (cuts1 cuts2 : CutSet)
         (sd1 sd2 : option StateDict) (p : Process G),
    let first := train_dataloaders self1 cuts1 sd1 p in
    let second := train_dataloaders self2 cuts2 sd2 (snd first) in
    generator (snd first) = snd (randint 0 100000 (generator p)) /\
    dl_worker_init_fn (fst first) =
      Some (mk_SeedWorkers (fst (randint 0 100000 (generator p)))) /\
    dl_worker_init_fn (fst second) =
      Some (mk_SeedWorkers
              (fst (randint 0 100000 (snd (randint 0 100000 (generator p)))))).
Proof.
  intros G gen self1 self2 cuts1 cuts2 sd1 sd2 p first second.
  subst first second.
  rewrite !train_dataloaders_result. cbn [dl_worker_init_fn].
  unfold base_seed. rewrite train_dataloaders_generator.
  repeat split; reflexivity.
Qed.

(** With the concrete generator the two seeds differ. *)
Example successive_train_loaders_run :
  let first := train_dataloaders (mk_TtsDataModule 0 default_args)
                 (mk_CutSet 0 "train.jsonl.gz") None (startup (mk_LCG 42)) in
  let second := train_dataloaders (mk_TtsDataModule 0 default_args)
                  (mk_CutSet 0 "train.jsonl.gz") None (snd first) in
  (dl_worker_init_fn (fst first), dl_worker_init_fn (fst second)) =
  (Some (mk_SeedWorkers 96027), Some (mk_SeedWorkers 2264)).
Proof. reflexivity. Qed.

(** ** Loaders and accessors do not interfere *)

Section FrameFacts.

Context {G : Type} `{Generator G}.

Lemma train_dataloaders_frame self cuts_train sd (p : Process G) :
  lru_caches (snd (train_dataloaders self cuts_train sd p)) = lru_caches p /\
  next_id (snd (train_dataloaders self cuts_train sd p)) = next_id p.
Proof.
  unfold train_dataloaders, bind, ret, logging_info, torch_randint.
  destruct (bucketing_sampler (args self)), sd; simpl;
    destruct (randint 0 100000 (generator p)); split; reflexivity.
Qed.

Lemma perform_result_frame (c : Call) (p q : Process G) :
  lru_caches q = lru_caches p ->
  next_id q = next_id p ->
  fst (perform c q) = fst (perform c p).
Proof.
  intros Hc Hn. rewrite !perform_result. unfold loaded_by.
  rewrite Hc, Hn. reflexivity.
Qed.

End FrameFacts.

(** X4: building a loader of any phase changes neither the caches of the
    accessors nor the objects they hold: an accessor call made after the
    construction returns what it would have returned before it. *)
Theorem accessors_unaffected_by_loader_construction :
  forall (G : Type) (gen : Generator G)
         (self : TtsDataModule) (cuts_train cuts_valid cuts : CutSet)
         (sd : option StateDict) (c : Call) (p : Process G),
    fst (perform c (snd (train_dataloaders self cuts_train sd p))) =
      fst (perform c p) /\
    fst (perform c (snd (dev_dataloaders self cuts_valid p))) =
      fst (perform c p) /\
    fst (perform c (snd (test_dataloaders self cuts p))) =
      fst (perform c p).
Proof.
  intros G gen self cuts_train cuts_valid cuts sd c p.
  destruct (train_dataloaders_frame self cuts_train sd p) as [Hc Hn].
  split; [|split].
  - now apply perform_result_frame.
  - apply perform_result_frame; reflexivity.
  - apply perform_result_frame; reflexivity.
Qed.

(** X10: no loader constructor reads [input_strategy], [manifest_dir] or
    the identity of the instance: with other values for them every
    constructor returns the same loader and leaves the same process. *)
Theorem loaders_ignore_input_strategy_and_manifest_dir :
  forall (G : Type) (gen : Generator G)
         (i j : nat) (a : Namespace) (dir strategy : string)
         (cuts_train cuts_valid cuts : CutSet)
         (sd : option StateDict) (p : Process G),
    let self := mk_TtsDataModule i a in
    let self' :=
      mk_TtsDataModule j (with_manifest_dir_and_strategy a dir strategy) in
    train_dataloaders self' cuts_train sd p =
      train_dataloaders self cuts_train sd p /\
    dev_dataloaders self' cuts_valid p = dev_dataloaders self cuts_valid p /\
    test_dataloaders self' cuts p = test_dataloaders self cuts p.
Proof.
  intros G gen i j a dir strategy cuts_train cuts_valid cuts sd p self self'.
  repeat split; reflexivity.
Qed.

(** ** What a sequence of accessor calls does to the process *)

Section TraceFacts.

Context {G : Type}.

Local Open Scope list_scope.

Lemma perform_log (c : Call) (p : Process G) :
  exists msg,
    log (snd (perform c p)) =
    match cache_get (key_of c) (lru_caches p (cache_of c)) with
    | Some _ => log p
    | None => log p ++ [msg]
    end.
Proof.
  destruct (perform_run c p) as [msg Hrun]. exists msg. rewrite Hrun.
  destruct (cache_get (key_of c) (lru_caches p (cache_of c))); reflexivity.
Qed.

Lemma perform_accounting (c : Call) (p : Process G) :
  exists new,
    log (snd (perform c p)) = log p ++ new /\
    next_id (snd (perform c p)) = (next_id p + List.length new)%nat /\
    (List.length new <= 1)%nat.
Proof.
  destruct (perform_log c p) as [msg Hlog].
  rewrite perform_next_id, Hlog.
  destruct (cache_get (key_of c) (lru_caches p (cache_of c))).
  - exists []. rewrite app_nil_r. simpl. repeat split; lia.
  - exists [msg]. simpl. repeat split; lia.
Qed.

End TraceFacts.

(** X5: over any sequence of accessor calls the log only grows, by one
    message for each manifest that is loaded: the number of objects
    allocated equals the number of messages added, and is at most the
    number of calls. *)
Theorem every_load_is_logged_once :
  forall (G : Type) (cs : list Call) (p : Process G),
    exists new : list string,
      log (snd (perform_all cs p)) = (log p ++ new)%list /\
      next_id (snd (perform_all cs p)) = (next_id p + List.length new)%nat /\
      (List.length new <= List.length cs)%nat.
Proof.
  intros G cs. induction cs as [|c rest IH]; intros p.
  - exists []. cbn. rewrite app_nil_r. repeat split; lia.
  - rewrite perform_all_cons. cbn [snd].
    destruct (perform_accounting c p) as (new1 & Hlog1 & Hid1 & Hlen1).
    destruct (IH (snd (perform c p))) as (new2 & Hlog2 & Hid2 & Hlen2).
    exists (new1 ++ new2)%list.
    rewrite Hlog2, Hlog1, Hid2, Hid1, <- app_assoc, length_app.
    cbn [List.length]. repeat split; lia.
Qed.

(** ** The caches stay within their bound *)

Section CacheBound.

Local Open Scope list_scope.

Lemma firstn_length_le {A : Type} (n : nat) (l : list A) :
  (List.length (firstn n l) <= n)%nat.
Proof.
  revert l. induction n as [|n IH]; intros [|a l]; simpl; try lia.
  specialize (IH l). lia.
Qed.

Lemma NoDup_firstn {A : Type} (n : nat) (l : list A) :
  NoDup l -> NoDup (firstn n l).
Proof.
  revert l. induction n as [|n IH]; intros [|a l] Hnd; simpl;
    try constructor.
  - inversion Hnd as [|? ? Hnot Hrest]; subst.
    intros Hin. apply Hnot. eapply In_firstn; eauto.
  - inversion Hnd; subst. now apply IH.
Qed.

Lemma cache_remove_length key c :
  (List.length (cache_remove key c) <= List.length c)%nat.
Proof.
  induction c as [|[k w] c IH]; simpl; [lia|].
  destruct (Key_eq_dec k key); simpl; lia.
Qed.

Lemma cache_remove_length_hit key c v :
  cache_get key c = Some v ->
  (S (List.length (cache_remove key c)) <= List.length c)%nat.
Proof.
  induction c as [|[k w] c IH]; simpl; [discriminate|].
  destruct (Key_eq_dec k key) as [->|Hne].
  - intros _. pose proof (cache_remove_length key c). lia.
  - intros Hget. specialize (IH Hget). simpl. lia.
Qed.

Lemma cache_remove_absent key c :
  ~ In key (map fst c) -> cache_remove key c = c.
Proof.
  induction c as [|[k w] c IH]; simpl; intros Hnot; [reflexivity|].
  destruct (Key_eq_dec k key) as [->|Hne]; [tauto|].
  rewrite IH by tauto. reflexivity.
Qed.

Lemma cache_get_absent key c :
  ~ In key (map fst c) -> cache_get key c = None.
Proof.
  induction c as [|[k w] c IH]; simpl; intros Hnot; [reflexivity|].
  destruct (Key_eq_dec k key) as [->|Hne]; [tauto|].
  apply IH. tauto.
Qed.

Lemma cache_step_length key loaded c :
  (List.length c <= maxsize)%nat ->
  (List.length (cache_step key loaded c) <= maxsize)%nat.
Proof.
  intros Hlen. unfold cache_step.
  destruct (cache_get key c) as [v|] eqn:Hget.
  - pose proof (cache_remove_length_hit _ _ _ Hget). cbn [List.length]. lia.
  - apply firstn_length_le.
Qed.

Lemma cache_step_ok key loaded c :
  cache_ok c -> cache_ok (cache_step key loaded c).
Proof.
  intros [Hnd Hlen]. split; [|now apply cache_step_length].
  unfold cache_step.
  destruct (cache_get key c) as [v|] eqn:Hget.
  - cbn [map fst]. constructor.
    + rewrite cache_remove_keys. tauto.
    + now apply cache_remove_NoDup.
  - rewrite <- firstn_map. apply NoDup_firstn.
    cbn [map fst]. constructor; [now apply cache_get_None | exact Hnd].
Qed.

Lemma cache_step_keys key loaded c x :
  In x (map fst (cache_step key loaded c)) -> x = key \/ In x (map fst c).
Proof.
  intros Hin. apply in_map_iff in Hin. destruct Hin as ([k v] & <- & Hin).
  cbn [fst]. destruct (cache_get key c) as [w|] eqn:Hget.
  - apply (cache_step_In_hit _ _ _ _ _ Hget) in Hin.
    right. apply in_map_iff. exists (k, v). auto.
  - apply (cache_step_In_miss _ _ _ _ Hget) in Hin.
    destruct Hin as [[= -> _]|Hin]; [now left|].
    right. apply in_map_iff. exists (k, v). auto.
Qed.

End CacheBound.

(** X6: starting from caches within the bound, every cache of every
    accessor holds at most 128 entries and at most one entry per key, after
    any sequence of accessor calls. *)
Theorem caches_stay_within_bound :
  forall (G : Type) (cs : list Call) (p : Process G),
    (forall name, cache_ok (lru_caches p name)) ->
    forall name,
      NoDup (map fst (lru_caches (snd (perform_all cs p)) name)) /\
      (List.length (lru_caches (snd (perform_all cs p)) name) <= 128)%nat.
Proof.
  intros G cs. induction cs as [|c rest IH]; intros p Hok name.
  - exact (Hok name).
  - rewrite perform_all_cons. cbn [snd]. apply IH.
    intros name'. rewrite perform_caches.
    destruct (String.eqb name' (cache_of c)); [|apply Hok].
    apply cache_step_ok, Hok.
Qed.

Lemma caches_stay_within_bound_witness :
  let self := mk_TtsDataModule 0 default_args in
  let cs := map (fun n => call_train_custom_cuts self positional (arg_str (numbered_manifest n)))
              (seq 1 200) in
  (List.length (lru_caches (snd (perform_all cs (startup tt)))
                  "train_custom_cuts") = 128)%nat /\
  (List.length (lru_caches (snd (perform_all cs (startup tt)))
                  "train_custom_cuts") <= 128)%nat.
Proof.
  intros self cs. split; [vm_compute; reflexivity|].
  apply (caches_stay_within_bound unit cs (startup tt)).
  intros name. split; [constructor | cbn; unfold maxsize; lia].
Defined.

(** ** Eviction *)

Section Eviction.

Local Open Scope list_scope.

Lemma cache_step_head key loaded c :
  exists v back, cache_step key loaded c = (key, v) :: back.
Proof.
  unfold cache_step. destruct (cache_get key c) as [w|]; [eauto|].
  unfold maxsize. cbn [firstn]. eauto.
Qed.

Lemma firstn_within_prefix {A : Type} (n : nat) (l1 l2 : list A) :
  (n <= List.length l1)%nat -> firstn n (l1 ++ l2) = firstn n l1.
Proof.
  intros Hlen. rewrite firstn_app.
  replace (n - List.length l1)%nat with O by lia.
  cbn [firstn]. apply app_nil_r.
Qed.

Lemma pushed_step key L key' loaded c :
  pushed key L c ->
  key' <> key ->
  ~ In key L ->
  ~ In key' L ->
  pushed key (L ++ [key']) (cache_step key' loaded c).
Proof.
  intros [Hgone | (front & back & v & -> & Hfront)] Hne HkL Hk'L.
  - left. intros Hin. apply cache_step_keys in Hin.
    destruct Hin as [Heq|Hin]; [congruence | contradiction].
  - assert (Hk'front : ~ In key' (map fst front)).
    { rewrite Hfront, <- in_rev. exact Hk'L. }
    assert (Hkfront : ~ In key (map fst front)).
    { rewrite Hfront, <- in_rev. exact HkL. }
    unfold cache_step.
    destruct (cache_get key' (front ++ (key, v) :: back)) as [w|] eqn:Hget.
    + right. rewrite cache_remove_app, (cache_remove_absent _ _ Hk'front).
      cbn [cache_remove].
      destruct (Key_eq_dec key key') as [Heq|_]; [congruence|].
      exists ((key', w) :: front), (cache_remove key' back), v.
      split; [reflexivity|].
      cbn [map fst]. rewrite Hfront, rev_app_distr. reflexivity.
    + destruct (le_lt_dec maxsize (List.length ((key', loaded) :: front)))
        as [Hfull|Hroom].
      * left.
        change ((key', loaded) :: front ++ (key, v) :: back)
          with (((key', loaded) :: front) ++ (key, v) :: back).
        rewrite (firstn_within_prefix _ _ _ Hfull), <- firstn_map.
        intros Hin. apply In_firstn in Hin. cbn [map fst] in Hin.
        destruct Hin as [Heq|Hin]; [congruence | contradiction].
      * right.
        destruct (firstn_past_prefix maxsize ((key', loaded) :: front) back
                    (key, v) Hroom) as [rest Hrest].
        change ((key', loaded) :: front ++ (key, v) :: back)
          with (((key', loaded) :: front) ++ (key, v) :: back).
        rewrite Hrest.
        exists ((key', loaded) :: front), rest, v.
        split; [reflexivity|].
        cbn [map fst]. rewrite Hfront, rev_app_distr. reflexivity.
Qed.

Lemma filter_none {A : Type} (f : A -> bool) (l : list A) :
  (forall x, In x l -> f x = false) -> filter f l = [].
Proof.
  induction l as [|a l IH]; intros Hall; [reflexivity|].
  cbn [filter]. rewrite (Hall a) by now left.
  apply IH. intros x Hx. apply Hall. now right.
Qed.

Context {G : Type}.

Lemma competes_spec (c c' : Call) :
  competes c c' = true ->
  cache_of c' = cache_of c /\ key_of c' <> key_of c.
Proof.
  unfold competes. intros Hc. apply andb_true_iff in Hc.
  destruct Hc as [Hname Hkey]. apply String.eqb_eq in Hname.
  destruct (Key_eq_dec (key_of c') (key_of c)); [discriminate | auto].
Qed.

Lemma perform_all_length (name : string) (cs : list Call) :
  forall p : Process G,
    (List.length (lru_caches p name) <= maxsize)%nat ->
    (List.length (lru_caches (snd (perform_all cs p)) name) <= maxsize)%nat.
Proof.
  induction cs as [|c rest IH]; intros p Hlen; [exact Hlen|].
  rewrite perform_all_cons. cbn [snd]. apply IH.
  rewrite perform_caches.
  destruct (String.eqb name (cache_of c)) eqn:Hname; [|exact Hlen].
  apply String.eqb_eq in Hname. subst name. now apply cache_step_length.
Qed.

Lemma pushed_through_calls (c : Call) (between : list Call) :
  (forall c', In c' between -> competes c c' = true) ->
  forall (L : list Key) (p : Process G),
    NoDup (L ++ map key_of between) ->
    ~ In (key_of c) L ->
    pushed (key_of c) L (lru_caches p (cache_of c)) ->
    pushed (key_of c) (L ++ map key_of between)
      (lru_caches (snd (perform_all between p)) (cache_of c)).
Proof.
  induction between as [|c' rest IH]; intros Hcomp L p Hnd HkL Hpushed.
  - cbn [map]. rewrite app_nil_r. exact Hpushed.
  - destruct (competes_spec c c' (Hcomp c' (or_introl eq_refl)))
      as [Hname Hkey].
    rewrite perform_all_cons. cbn [snd map].
    change (key_of c' :: map key_of rest)
      with ([key_of c'] ++ map key_of rest).
    rewrite app_assoc. cbn [map] in Hnd.
    apply IH.
    + intros c'' Hin. apply Hcomp. now right.
    + rewrite <- app_assoc. exact Hnd.
    + rewrite in_app_iff. intros [Hin|[Heq|[]]]; [contradiction | congruence].
    + rewrite perform_caches, <- Hname, String.eqb_refl.
      apply pushed_step; auto.
      * rewrite Hname. exact Hpushed.
      * apply NoDup_remove_2 in Hnd. rewrite in_app_iff in Hnd. tauto.
Qed.

End Eviction.

(** X7: once [maxsize] pairwise different other keys have gone through an
    accessor's cache, the entry of an earlier call is evicted: the same call
    loads its manifest again. *)
Theorem entry_is_evicted_after_maxsize_other_keys :
  forall (G : Type) (c : Call) (between : list Call) (p : Process G),
    (forall c', In c' between -> competes c c' = true) ->
    NoDup (map key_of between) ->
    (maxsize <= List.length between)%nat ->
    (List.length (lru_caches p (cache_of c)) <= maxsize)%nat ->
    let p2 := snd (perform_all between (snd (perform c p))) in
    fst (perform c p2) = mk_CutSet (next_id p2) (path_of c) /\
    next_id (snd (perform c p2)) = S (next_id p2).
Proof.
  intros G c between p Hcomp Hnd Hmany Hlen p2.
  assert (Hlen2 : (List.length (lru_caches p2 (cache_of c)) <= maxsize)%nat).
  { subst p2. apply perform_all_length.
    rewrite perform_caches, String.eqb_refl. now apply cache_step_length. }
  assert (Hpushed : pushed (key_of c) ([] ++ map key_of between)
                      (lru_caches p2 (cache_of c))).
  { subst p2. apply pushed_through_calls; auto.
    rewrite perform_caches, String.eqb_refl.
    destruct (cache_step_head (key_of c) (loaded_by c p)
                (lru_caches p (cache_of c))) as (v & back & ->).
    right. exists [], back, v. split; reflexivity. }
  cbn [app] in Hpushed.
  assert (Hgone : ~ In (key_of c) (map fst (lru_caches p2 (cache_of c)))).
  { destruct Hpushed as [Hgone | (front & back & v & Heq & Hfront)];
      [exact Hgone|].
    exfalso. rewrite Heq, length_app in Hlen2. cbn [List.length] in Hlen2.
    assert (List.length front = List.length between).
    { rewrite <- (length_map fst front), Hfront, length_rev, length_map.
      reflexivity. }
    lia. }
  apply cache_get_absent in Hgone.
  rewrite perform_result, perform_next_id, Hgone. split; reflexivity.
Qed.

Lemma entry_is_evicted_after_maxsize_other_keys_witness :
  let self := mk_TtsDataModule 0 default_args in
  let c := call_dev_custom_cuts self positional (arg_str "data/fbank/custom_cuts_dev.jsonl.gz") in
  let between :=
    map (fun n => call_dev_custom_cuts self positional (arg_str (numbered_manifest n))) (seq 1 128) in
  let p2 := snd (perform_all between (snd (perform c (startup tt)))) in
  (fst (perform c p2) = mk_CutSet (next_id p2) (path_of c) /\
   next_id (snd (perform c p2)) = S (next_id p2)) /\
  next_id p2 = 129%nat.
Proof.
  intros self c between p2.
  assert (Hcomp : forall c', In c' between -> competes c c' = true).
  { apply forallb_forall. vm_compute. reflexivity. }
  assert (Hnd : NoDup (map key_of between)).
  { assert (Hfix : nodup Key_eq_dec (map key_of between) = map key_of between)
      by (vm_compute; reflexivity).
    rewrite <- Hfix. apply NoDup_nodup. }
  assert (Hmany : (maxsize <= List.length between)%nat)
    by (vm_compute; lia).
  assert (Hlen : (List.length (lru_caches (startup tt) (cache_of c)) <= maxsize)%nat)
    by (vm_compute; lia).
  split.
  - exact (entry_is_evicted_after_maxsize_other_keys unit c between (startup tt)
             Hcomp Hnd Hmany Hlen).
  - vm_compute. reflexivity.
Defined.

(** ** What a cached entry answers to *)

Section SameKey.

Context {G : Type}.

Local Open Scope list_scope.


Lemma keyed_step key loaded c :
  keyed_by_manifest c ->
  named_manifest key = Some (manifest loaded) ->
  keyed_by_manifest (cache_step key loaded c).
Proof.
  intros Hkeyed Hkey k v Hin.
  destruct (cache_get key c) as [w|] eqn:Hget.
  - apply Hkeyed. eapply cache_step_In_hit; eauto.
  - apply (cache_step_In_miss _ _ _ _ Hget) in Hin.
    destruct Hin as [[= -> ->]|Hin]; [exact Hkey | now apply Hkeyed].
Qed.

Lemma takes_manifest_key (c : Call) :
  takes_manifest c = true -> named_manifest (key_of c) = Some (path_of c).
Proof. apply custom_key_names_path. Qed.

Lemma takes_manifest_cache (c : Call) :
  takes_manifest c = true ->
  cache_of c = "train_custom_cuts"%string \/ cache_of c = "dev_custom_cuts"%string.
Proof. destruct c; simpl; intros Ht; try discriminate Ht; auto. Qed.

Lemma fixed_accessor_cache (c : Call) :
  takes_manifest c = false ->
  String.eqb "train_custom_cuts" (cache_of c) = false /\
  String.eqb "dev_custom_cuts" (cache_of c) = false.
Proof.
  destruct c; simpl; intros Ht; try discriminate Ht; split; reflexivity.
Qed.

Lemma perform_custom_caches_keyed (c : Call) (p : Process G) :
  custom_caches_keyed p -> custom_caches_keyed (snd (perform c p)).
Proof.
  intros [Htrain Hdev]. unfold custom_caches_keyed.
  rewrite !perform_caches.
  destruct (takes_manifest c) eqn:Ht.
  - pose proof (takes_manifest_key c Ht) as Hkey.
    split.
    + destruct (String.eqb "train_custom_cuts" (cache_of c)) eqn:Hname;
        [|exact Htrain].
      apply String.eqb_eq in Hname. rewrite <- Hname.
      apply keyed_step; [exact Htrain | exact Hkey].
    + destruct (String.eqb "dev_custom_cuts" (cache_of c)) eqn:Hname;
        [|exact Hdev].
      apply String.eqb_eq in Hname. rewrite <- Hname.
      apply keyed_step; [exact Hdev | exact Hkey].
  - destruct (fixed_accessor_cache c Ht) as [-> ->]. split; assumption.
Qed.

Lemma perform_custom_manifest (c : Call) (p : Process G) :
  custom_caches_keyed p ->
  takes_manifest c = true ->
  manifest (fst (perform c p)) = path_of c.
Proof.
  intros [Htrain Hdev] Ht. rewrite perform_result.
  destruct (cache_get (key_of c) (lru_caches p (cache_of c))) as [v|] eqn:Hget;
    [|reflexivity].
  apply cache_get_In in Hget.
  pose proof (takes_manifest_key c Ht) as Hkey.
  assert (Hv : named_manifest (key_of c) = Some (manifest v)).
  { destruct (takes_manifest_cache c Ht) as [Hname|Hname];
      rewrite Hname in Hget; [now apply Htrain | now apply Hdev]. }
  rewrite Hkey in Hv. now inversion Hv.
Qed.

End SameKey.

(** X14: calls through other accessors, and calls with the same key, never
    evict an entry: however many of them come in between, the repeated call
    returns the first call's handle and loads nothing. *)
Theorem other_accessors_never_evict :
  forall (G : Type) (c : Call) (between : list Call) (p : Process G),
    (forall c', In c' between ->
       cache_of c' <> cache_of c \/ key_of c' = key_of c) ->
    let p2 := snd (perform_all between (snd (perform c p))) in
    fst (perform c p2) = fst (perform c p) /\
    next_id (snd (perform c p2)) = next_id p2.
Proof.
  intros G c between p Hother.
  apply repeated_call_hits.
  unfold competitors. rewrite filter_none.
  - cbn. unfold maxsize. lia.
  - intros c' Hin. unfold competes.
    destruct (Hother c' Hin) as [Hname|Hkey].
    + apply String.eqb_neq in Hname. rewrite Hname. reflexivity.
    + destruct (Key_eq_dec (key_of c') (key_of c)); [|contradiction].
      apply andb_false_r.
Qed.

Lemma other_accessors_never_evict_witness :
  let self := mk_TtsDataModule 0 default_args in
  let c := call_train_emilia_EN_cuts self in
  let between :=
    map (fun n => call_train_custom_cuts self positional (arg_str (numbered_manifest n))) (seq 1 200) in
  let p2 := snd (perform_all between (snd (perform c (startup tt)))) in
  fst (perform c p2) = fst (perform c (startup tt)) /\
  next_id (snd (perform c p2)) = next_id p2.
Proof.
  intros self c between p2.
  apply (other_accessors_never_evict unit c between (startup tt)).
  intros c' Hin. left.
  apply in_map_iff in Hin. destruct Hin as (n & <- & _).
  discriminate.
Defined.



(** X9: in a process whose two manifest-taking caches hold handles on the
    manifests their keys name (as at startup, when they are empty), every
    call of [train_custom_cuts] or [dev_custom_cuts] returns a handle on
    the manifest it was called with, hit or miss, however the argument was
    passed. *)
Theorem custom_accessors_return_the_requested_manifest :
  forall (G : Type) (cs : list Call) (p : Process G),
    custom_caches_keyed p ->
    forall (self : TtsDataModule) (how : passing)
           (manifest_file : manifest_arg) (h : CutSet),
      In (call_train_custom_cuts self how manifest_file, h)
         (fst (perform_all cs p)) \/
      In (call_dev_custom_cuts self how manifest_file, h)
         (fst (perform_all cs p)) ->
      manifest h = arg_text manifest_file.
Proof.
  intros G cs. induction cs as [|c rest IH]; intros p Hkeyed self how f h Hin.
  - destruct Hin as [[]|[]].
  - rewrite perform_all_cons in Hin. cbn [fst] in Hin.
    assert (Hstep : forall c0, takes_manifest c0 = true ->
              (c0, h) = (c, fst (perform c p)) -> manifest h = path_of c0).
    { intros c0 Ht [= -> ->]. now apply perform_custom_manifest. }
    destruct Hin as [[Heq|Hin]|[Heq|Hin]].
    + symmetry in Heq.
      exact (Hstep (call_train_custom_cuts self how f) eq_refl Heq).
    + eapply IH; [apply perform_custom_caches_keyed; exact Hkeyed | left; exact Hin].
    + symmetry in Heq.
      exact (Hstep (call_dev_custom_cuts self how f) eq_refl Heq).
    + eapply IH; [apply perform_custom_caches_keyed; exact Hkeyed | right; exact Hin].
Qed.

Lemma custom_accessors_return_the_requested_manifest_witness :
  let self := mk_TtsDataModule 0 default_args in
  let cs := [ call_train_custom_cuts self positional (arg_str "a.jsonl.gz");
              call_dev_custom_cuts self by_keyword (arg_Path "b.jsonl.gz");
              call_train_custom_cuts self positional (arg_str "a.jsonl.gz") ] in
  custom_caches_keyed (startup tt) /\
  manifest (mk_CutSet 0 "a.jsonl.gz") = "a.jsonl.gz".
Proof.
  intros self cs.
  assert (Hkeyed : custom_caches_keyed (startup tt)).
  { split; intros k v []. }
  split; [exact Hkeyed|].
  apply (custom_accessors_return_the_requested_manifest unit cs (startup tt)
           Hkeyed self positional (arg_str "a.jsonl.gz")
           (mk_CutSet 0 "a.jsonl.gz")).
  left. right. right. left. reflexivity.
Defined.

(** ** The parsed configuration *)

Section ParsedArgs.

Variable py_int : string -> option Z.
Variable str2bool : string -> option bool.

Lemma convert_converted (t : converter) (s : string) (v : value) :
  convert py_int str2bool t s = Some v -> converted t v.
Proof.
  destruct t; simpl.
  - intros [= <-]. eauto.
  - destruct (py_int s); simpl; intros [= <-]. eauto.
  - destruct (str2bool s); simpl; intros [= <-]. eauto.
  - intros [= <-]. eauto.
Qed.

Lemma convert_all_converted (t : converter) (ss : list string) (vs : list value) :
  convert_all py_int str2bool t ss = Some vs ->
  Forall (converted t) vs /\ List.length vs = List.length ss.
Proof.
  revert vs. induction ss as [|s ss IH]; intros vs; cbn [convert_all].
  - intros [= <-]. split; [constructor | reflexivity].
  - destruct (convert py_int str2bool t s) as [v|] eqn:Hv; [|discriminate].
    destruct (convert_all py_int str2bool t ss) as [vs'|]; [|discriminate].
    intros [= <-]. destruct (IH vs' eq_refl) as [Hall Hlen].
    split; [|cbn [List.length]; now rewrite Hlen].
    constructor; [eapply convert_converted; eauto | exact Hall].
Qed.

Lemma Forall_last {A : Type} (P : A -> Prop) (vs : list A) (v : A) :
  Forall P (v :: vs) -> P (last vs v).
Proof.
  induction vs as [|w vs IH]; intros Hall.
  - now inversion Hall.
  - inversion Hall as [|? ? Hv Hrest]; subst.
    inversion Hrest as [|? ? Hw Hvs]; subst.
    destruct vs as [|x vs]; [exact Hw|].
    apply IH. constructor; assumption.
Qed.

Lemma occurrences_given (parser : list argument) (opt : string)
    (argv : command_line) :
  given parser opt argv = false <-> occurrences parser opt argv = [].
Proof.
  unfold given, occurrences.
  induction argv as [|kv argv IH]; cbn [existsb filter map]; [tauto|].
  destruct (names parser (fst kv) opt); cbn [orb map].
  - split; discriminate.
  - exact IH.
Qed.

(** A parsed attribute is a converted command-line value when the option
    occurs, and otherwise the default as argparse stores it. *)
Lemma parse_argument_value (parser : list argument) (a : argument)
    (argv : command_line) (kv : string * value) :
  parse_argument py_int str2bool parser a argv = Some kv ->
  fst kv = dest a /\
  ((given parser (option_string a) argv = true /\ converted (type a) (snd kv)) \/
   (given parser (option_string a) argv = false /\
    default_value py_int str2bool a = Some (snd kv))).
Proof.
  unfold parse_argument.
  destruct (convert_all py_int str2bool (type a)
              (occurrences parser (option_string a) argv)) as [vs|] eqn:Hall;
    [|discriminate].
  apply convert_all_converted in Hall. destruct Hall as [Hconv Hlen].
  destruct vs as [|v vs].
  - destruct (default_value py_int str2bool a) as [d|]; simpl; intros [= <-].
    split; [reflexivity|]. right. split; [|reflexivity].
    apply occurrences_given.
    destruct (occurrences parser (option_string a) argv);
      [reflexivity | discriminate Hlen].
  - intros [= <-]. split; [reflexivity|]. left. split.
    + destruct (given parser (option_string a) argv) eqn:Hgiven; [reflexivity|].
      apply occurrences_given in Hgiven. rewrite Hgiven in Hlen.
      discriminate Hlen.
    + cbn [snd]. now apply Forall_last.
Qed.

Lemma parse_each_cons_inv (parser : list argument) (a : argument)
    (rest : list argument) (argv : command_line) (ns : list (string * value)) :
  parse_each py_int str2bool parser (a :: rest) argv = Some ns ->
  exists kv ns',
    parse_argument py_int str2bool parser a argv = Some kv /\
    parse_each py_int str2bool parser rest argv = Some ns' /\
    ns = kv :: ns'.
Proof.
  cbn [parse_each].
  destruct (parse_argument py_int str2bool parser a argv) as [kv|];
    [|discriminate].
  destruct (parse_each py_int str2bool parser rest argv) as [ns'|];
    [|discriminate].
  intros [= <-]. eauto.
Qed.

Lemma parse_args_each (parser : list argument) (argv : command_line)
    (ns : list (string * value)) :
  parse_args py_int str2bool parser argv = Some ns ->
  recognised parser argv = true /\
  parse_each py_int str2bool parser parser argv = Some ns.
Proof.
  unfold parse_args. destruct (recognised parser argv); [auto | discriminate].
Qed.

End ParsedArgs.

(** X11: whenever a command line parses, every attribute has the type its
    option declares, so the namespace is a configuration the module can
    read, with one exception: [max_duration] is an integer when
    [--max-duration] occurs on the command line, in full or abbreviated,
    and the float 200.0 when it does not. *)
Theorem parsed_namespace_is_typed :
  forall (py_int : string -> option Z) (str2bool : string -> option bool)
         (argv : command_line) (ns : list (string * value)),
    parse_args py_int str2bool (add_arguments []) argv = Some ns ->
    exists a : Namespace,
      to_Namespace ns = Some a /\
      (given (add_arguments []) "--max-duration" argv = false ->
       max_duration a = VFloat 200.0%float) /\
      (given (add_arguments []) "--max-duration" argv = true ->
       exists n : Z, max_duration a = VInt n).
Proof.
  intros py_int str2bool argv ns Hparse.
  apply parse_args_each in Hparse. destruct Hparse as [_ Hparse].
  remember (add_arguments []) as parser eqn:Hparser in Hparse at 1.
  unfold add_arguments in Hparse. cbn [app] in Hparse.
  repeat
    match type of Hparse with
    | parse_each _ _ _ (_ :: _) _ = Some _ =>
        let kv := fresh "kv" in
        let Hkv := fresh "Hkv" in
        apply parse_each_cons_inv in Hparse;
        destruct Hparse as (kv & ? & Hkv & Hparse & ->);
        apply parse_argument_value in Hkv;
        destruct kv as [? ?];
        cbn [fst snd option_string type default default_value convert] in Hkv;
        destruct Hkv as [-> Hkv]
    end.
  cbn [parse_each] in Hparse. injection Hparse as <-.
  subst parser.
  match goal with
  | H : (given _ "--max-duration" argv = true /\ _) \/ _ |- _ => revert H
  end.
  repeat
    match goal with
    | H : (_ /\ converted _ ?v) \/ (_ /\ Some _ = Some ?v) |- _ =>
        assert (converted _ v)
          by (destruct H as [[_ Hc]|[_ [= <-]]]; [exact Hc | cbn; eauto]);
        clear H
    end.
  repeat
    match goal with
    | H : converted _ _ |- _ => cbn [converted] in H; destruct H as [? ->]
    end.
  intros [[Hgiven [n ->]]|[Hnone [= <-]]].
  - eexists. split; [reflexivity|]. cbn [max_duration].
    split; [intros Hnone; congruence | eauto].
  - eexists. split; [reflexivity|]. cbn [max_duration].
    split; [reflexivity | intros Hgiven; congruence].
Qed.

Lemma parsed_namespace_is_typed_witness :
  let py_int := fun s => if String.eqb s "300" then Some 300 else None in
  let str2bool := fun _ : string => @None bool in
  let argv := [("--max-dur", "300")] in
  given (add_arguments []) "--max-duration" argv = true /\
  exists a : Namespace,
    option_map to_Namespace (parse_args py_int str2bool (add_arguments []) argv)
      = Some (Some a) /\
    max_duration a = VInt 300.
Proof.
  intros py_int str2bool argv.
  split; [vm_compute; reflexivity|].
  destruct (parsed_namespace_is_typed py_int str2bool argv _ eq_refl)
    as (a & Ha & _ & Hint).
  exists a. split; [exact (f_equal Some Ha)|].
  revert Ha. vm_compute. intros [= <-]. reflexivity.
Defined.

(** ** The files the accessors open *)

Lemma append_cancel_l (d s1 s2 : string) :
  (d ++ s1 = d ++ s2)%string -> s1 = s2.
Proof.
  induction d as [|a d IH]; simpl; [tauto|].
  intros [= Heq]. now apply IH.
Qed.

Lemma append_nonempty_r (s1 s2 : string) :
  s2 <> EmptyString -> (s1 ++ s2)%string <> EmptyString.
Proof. destruct s1; simpl; [tauto | discriminate]. Qed.

Lemma concat_cons (sep x : string) (xs : list string) :
  xs <> [] ->
  String.concat sep (x :: xs) = (x ++ sep ++ String.concat sep xs)%string.
Proof. destruct xs; [contradiction | reflexivity]. Qed.

Lemma concat_last_nonempty (ps : list string) (n : string) :
  n <> EmptyString -> String.concat "/" (ps ++ [n])%list <> EmptyString.
Proof.
  intros Hn. destruct ps as [|p ps]; [exact Hn|].
  cbn [app]. rewrite concat_cons by (destruct ps; discriminate).
  apply append_nonempty_r. discriminate.
Qed.

Lemma concat_last_inj (ps : list string) (n1 n2 : string) :
  String.concat "/" (ps ++ [n1])%list = String.concat "/" (ps ++ [n2])%list ->
  n1 = n2.
Proof.
  induction ps as [|p ps IH]; [tauto|].
  cbn [app]. rewrite !concat_cons by (destruct ps; discriminate).
  intros Heq. apply append_cancel_l in Heq.
  apply (append_cancel_l "/") in Heq. now apply IH.
Qed.

(** A file name that is one path component: [Path(name)] has just it. *)
Lemma path_join_file_inj (dir n1 n2 : string) :
  Path_parse n1 = mk_PurePath "" [n1] ->
  Path_parse n2 = mk_PurePath "" [n2] ->
  path_join dir n1 = path_join dir n2 ->
  n1 = n2.
Proof.
  intros H1 H2. unfold path_join, Path_truediv, Path_str.
  rewrite H1, H2. cbn [root parts].
  assert (Hne : forall n, Path_parse n = mk_PurePath "" [n] -> n <> EmptyString).
  { intros n Hn ->. discriminate Hn. }
  pose proof (concat_last_nonempty (parts (Path_parse dir)) n1 (Hne _ H1)) as Hc1.
  pose proof (concat_last_nonempty (parts (Path_parse dir)) n2 (Hne _ H2)) as Hc2.
  apply (append_nonempty_r (root (Path_parse dir))) in Hc1, Hc2.
  destruct (root (Path_parse dir)
            ++ String.concat "/" (parts (Path_parse dir) ++ [n1])%list)%string
    eqn:E1; [contradiction|].
  destruct (root (Path_parse dir)
            ++ String.concat "/" (parts (Path_parse dir) ++ [n2])%list)%string
    eqn:E2; [contradiction|].
  intros Heq. rewrite <- Heq in E2. rewrite <- E2 in E1.
  apply append_cancel_l in E1. now apply concat_last_inj in E1.
Qed.

(** X12: on instances configured with the same manifest directory, two
    different accessors without arguments never open the same file. *)
Theorem fixed_accessors_open_distinct_files :
  forall (c1 c2 : Call),
    takes_manifest c1 = false ->
    takes_manifest c2 = false ->
    manifest_dir (args (self_of c1)) = manifest_dir (args (self_of c2)) ->
    cache_of c1 <> cache_of c2 ->
    path_of c1 <> path_of c2.
Proof.
  intros c1 c2 H1 H2 Hdir Hname Hpath.
  destruct c1; try discriminate H1; destruct c2; try discriminate H2;
    cbn [self_of] in Hdir; cbn [path_of] in Hpath;
    rewrite Hdir in Hpath;
    apply path_join_file_inj in Hpath; try reflexivity;
    first [discriminate Hpath | apply Hname; reflexivity].
Qed.

Lemma fixed_accessors_open_distinct_files_witness :
  let self := mk_TtsDataModule 0 default_args in
  path_of (call_train_emilia_EN_cuts self) <> path_of (call_dev_emilia_EN_cuts self).
Proof.
  intros self.
  apply (fixed_accessors_open_distinct_files
           (call_train_emilia_EN_cuts self) (call_dev_emilia_EN_cuts self)
           eq_refl eq_refl eq_refl).
  discriminate.
Defined.

(** ** Recency *)

Lemma perform_all_app {G : Type} (l1 l2 : list Call) (p : Process G) :
  snd (perform_all (l1 ++ l2)%list p) =
  snd (perform_all l2 (snd (perform_all l1 p))).
Proof.
  revert p. induction l1 as [|c l1 IH]; intros p; [reflexivity|].
  cbn [app]. rewrite !perform_all_cons. cbn [snd]. apply IH.
Qed.

(** X13: a hit renews the entry.  If the same call is made again part of
    the way through, the bound of 128 other keys applies to each stretch
    separately, so the entry survives more than 128 other keys overall. *)
Theorem hit_renews_the_entry :
  forall (G : Type) (c : Call) (before after : list Call) (p : Process G),
    (List.length (competitors c before) < maxsize)%nat ->
    (List.length (competitors c after) < maxsize)%nat ->
    let p' := snd (perform_all (before ++ c :: after)%list (snd (perform c p))) in
    fst (perform c p') = fst (perform c p) /\
    next_id (snd (perform c p')) = next_id p'.
Proof.
  intros G c before after p Hbefore Hafter p'.
  subst p'. rewrite perform_all_app, perform_all_cons. cbn [snd].
  destruct (repeated_call_hits c before p Hbefore) as [Hfirst _].
  destruct (repeated_call_hits c after
              (snd (perform_all before (snd (perform c p)))) Hafter)
    as [Hsecond Hnoload].
  cbv zeta in Hfirst, Hsecond, Hnoload.
  rewrite Hsecond, Hfirst. split; [reflexivity | exact Hnoload].
Qed.

Lemma hit_renews_the_entry_witness :
  let self := mk_TtsDataModule 0 default_args in
  let c := call_train_custom_cuts self positional (arg_str "data/fbank/custom_cuts_train.jsonl.gz") in
  let before :=
    map (fun n => call_train_custom_cuts self positional (arg_str (numbered_manifest n))) (seq 1 100) in
  let after :=
    map (fun n => call_train_custom_cuts self positional (arg_str (numbered_manifest n))) (seq 101 100) in
  let p' := snd (perform_all (before ++ c :: after)%list
                   (snd (perform c (startup tt)))) in
  (List.length (competitors c (before ++ after)%list) = 200)%nat /\
  fst (perform c p') = fst (perform c (startup tt)) /\
  next_id (snd (perform c p')) = next_id p'.
Proof.
  intros self c before after p'.
  split; [vm_compute; reflexivity|].
  apply (hit_renews_the_entry unit c before after (startup tt)).
  - vm_compute. lia.
  - vm_compute. lia.
Defined.

(** The same path passed by keyword, or as a [Path], is another key: each
    of the first three calls loads the manifest, and only the fourth, which
    repeats the first, gets a cached handle. *)
Example same_path_passed_differently :
  let self := mk_TtsDataModule 0 default_args in
  let run :=
    perform_all
      [ call_train_custom_cuts self positional (arg_str "cuts.jsonl.gz");
        call_train_custom_cuts self by_keyword (arg_str "cuts.jsonl.gz");
        call_train_custom_cuts self positional (arg_Path "cuts.jsonl.gz");
        call_train_custom_cuts self positional (arg_str "cuts.jsonl.gz") ]
      (startup tt) in
  map (fun r => cutset_id (snd r)) (fst run) = [0; 1; 2; 0]%nat.
Proof. reflexivity. Qed.

(** Two spellings of one path are one [Path], hence one key, but two
    strings, hence two keys. *)
Example path_spellings :
  let self := mk_TtsDataModule 0 default_args in
  let run :=
    perform_all
      [ call_dev_custom_cuts self positional (arg_Path "data/cuts.jsonl.gz");
        call_dev_custom_cuts self positional (arg_Path "data//cuts.jsonl.gz");
        call_dev_custom_cuts self positional (arg_str "data/cuts.jsonl.gz");
        call_dev_custom_cuts self positional (arg_str "data//cuts.jsonl.gz") ]
      (startup tt) in
  map (fun r => cutset_id (snd r)) (fst run) = [0; 0; 1; 2]%nat.
Proof. reflexivity. Qed.

(** An abbreviated option is the option; an ambiguous or unknown one, or a
    value that looks like an option, ends the parse. *)
Example parse_args_abbreviations :
  let py_int := fun s => if String.eqb s "300" then Some 300 else None in
  let str2bool := fun _ : string => @None bool in
  let run := fun argv =>
    option_map (fun ns => getattr ns "max_duration")
      (parse_args py_int str2bool (add_arguments []) argv) in
  run [("--max-dur", "300")] = Some (Some (VInt 300)) /\
  run [("--ma", "300")] = None /\
  run [("--max-duration", "300"); ("--foo", "1")] = None /\
  run [("--max-duration", "x"); ("--max-duration", "300")] = None /\
  run [("--manifest-dir", "-x")] = None /\
  run [("--manifest-dir", "a//b/")] = Some (Some (VFloat 200.0%float)).
Proof. repeat split; reflexivity. Qed.

(** [pathlib] drops a trailing slash and an empty directory. *)
Example path_join_normalises :
  path_join "data/fbank/" "emilia_cuts_EN.jsonl.gz" =
    "data/fbank/emilia_cuts_EN.jsonl.gz" /\
  path_join "" "emilia_cuts_EN.jsonl.gz" = "emilia_cuts_EN.jsonl.gz" /\
  path_join "/" "emilia_cuts_EN.jsonl.gz" = "/emilia_cuts_EN.jsonl.gz".
Proof. repeat split; reflexivity. Qed.
